(** * clip_retrieval.clip_inference.reader: files and webdataset readers

    A shallow embedding of [reader.py] (the key resolver [folder_to_keys],
    the folder loader [ImageDataset], the archive loader
    [create_webdataset] and the batch assembler of
    [dataset_to_dataloader]) together with the properties of the reader
    design that can be settled on it. *)

From Stdlib Require Import ZArith Lia.
From stdpp Require Import gmap strings list fin_maps sorting.

Open Scope string_scope.
Open Scope list_scope.

(** ** Python runtime fragments used by the reader *)

Module Py.

(** Exceptions the reader can raise or meet. *)
Inductive Exn : Type :=
| KeyError (key : string)
| IndexError
| TypeError
| ValueError
| AttributeError
| UnidentifiedImageError (msg : string)
| OSError (msg : string)
| UnicodeDecodeError
| OtherError (msg : string).

(** Result of a computation that either returns or raises. *)
Inductive Res (A : Type) : Type :=
| Ok (a : A)
| Raise (e : Exn).
Arguments Ok {A} a.
Arguments Raise {A} e.

Definition res_bind {A B} (f : A → Res B) (r : Res A) : Res B :=
  match r with
  | Ok a => f a
  | Raise e => Raise e
  end.

#[export] Instance res_mret : MRet Res := λ A a, Ok a.
#[export] Instance res_mbind : MBind Res := λ A B f r, res_bind f r.
#[export] Instance res_fmap : FMap Res := λ A B f r, res_bind (λ a, Ok (f a)) r.

(** Calls that cross the boundary of the reader: what it prints, the
    warnings of the container layer, and the calls to the injected
    sampler, transform and tokenizer and to the file and image layers. *)
Inductive Event : Type :=
| EvPrint (line : string)
| EvWarn (e : Exn)
| EvSampler (arg : list string)
| EvImageOpen (src : string)
| EvTransform
| EvReadText (file : string)
| EvTokenizer (arg : list string).

(** Effectful computations: the trace of boundary calls, and a result. *)
Definition Eff (A : Type) : Type := (list Event * Res A)%type.

Definition eff_bind {A B} (f : A → Eff B) (m : Eff A) : Eff B :=
  match m with
  | (t, Ok a) => let '(t', r) := f a in (t ++ t', r)
  | (t, Raise e) => (t, Raise e)
  end.

#[export] Instance eff_mret : MRet Eff := λ A a, ([], Ok a).
#[export] Instance eff_mbind : MBind Eff := λ A B f m, eff_bind f m.

Definition lift {A} (r : Res A) : Eff A := ([], r).
Definition raise {A} (e : Exn) : Eff A := ([], Raise e).
Definition emit (ev : Event) : Eff unit := ([ev], Ok tt).

(** A call to an outside function [r], recorded as [ev]. *)
Definition call {A} (ev : Event) (r : Res A) : Eff A := ([ev], r).

(** [try: body except <caught> as e: handler e]. *)
Definition try_except {A} (body : Eff A) (caught : Exn → bool)
    (handler : Exn → Eff A) : Eff A :=
  match body with
  | (t, Raise e) =>
      if caught e then let '(t', r) := handler e in (t ++ t', r)
      else (t, Raise e)
  | _ => body
  end.

(** [d[key]] on a dict. *)
Definition dict_getitem {V} (d : gmap string V) (key : string) : Res V :=
  match d !! key with
  | Some v => Ok v
  | None => Raise (KeyError key)
  end.

(** [l[i]] on a list, negative indices counting from the end. *)
Definition list_getitem {A} (l : list A) (i : Z) : Res A :=
  let n := Z.of_nat (length l) in
  let j := if (i <? 0)%Z then (n + i)%Z else i in
  if ((0 <=? j) && (j <? n))%Z
  then match l !! Z.to_nat j with
       | Some x => Ok x
       | None => Raise IndexError
       end
  else Raise IndexError.

(** An attribute or variable that is [None] when a modality is off. *)
Definition not_none {A} (o : option A) : Res A :=
  match o with
  | Some a => Ok a
  | None => Raise AttributeError
  end.

(** [sorted(keys)] on a set of strings, or on [None]. Strings compare by
    code point, which for UTF-8 encoded strings is the byte order of
    [String.le]; the elements of a set are distinct, so the sorted list
    is unique whatever the sorting algorithm. *)
Definition sorted (keys : option (gset string)) : Res (list string) :=
  match keys with
  | Some ks => Ok (merge_sort String.le (elements ks))
  | None => Raise TypeError
  end.

(** [s.endswith(suffix)]. *)
Fixpoint endswith (s suffix : string) : bool :=
  if String.eqb s suffix then true
  else match s with
       | EmptyString => false
       | String _ s' => endswith s' suffix
       end.

(** [str(e)] for the exceptions that carry a message. *)
Definition exn_str (e : Exn) : string :=
  match e with
  | KeyError k => "'" +:+ k +:+ "'"
  | UnidentifiedImageError m | OSError m | OtherError m => m
  | _ => ""
  end.

End Py.
Import Py.

(** ** The folder on disk *)

(** A [pathlib.Path] below the folder: the root it was globbed from and
    its path relative to that root in POSIX form. *)
Record Path : Type := { path_root : string; path_rel : string }.

(** [str(path)], for a root written without a trailing separator. *)
Definition path_str (p : Path) : string :=
  path_root p +:+ "/" +:+ path_rel p.

(** A directory tree: its root and the relative POSIX paths of the
    entries below it. *)
Record Folder : Type := { folder_root : string; folder_entries : list string }.

(** [path.glob("**/*.<ext>")] on a POSIX file system: the entries, at any
    depth, whose last component matches [*.<ext>], case-sensitively. The
    literal tail [.<ext>] holds no separator, so the last component
    matches exactly when the relative path ends with it. *)
Definition glob (folder : Folder) (ext : string) : list Path :=
  (λ rel, {| path_root := folder_root folder; path_rel := rel |})
    <$> List.filter (λ rel, endswith rel ("." +:+ ext)) (folder_entries folder).

(** [{f.relative_to(path).as_posix(): f for f in files}]: a later file
    with the same key overwrites an earlier one. *)
Definition files_by_key (files : list Path) : gmap string Path :=
  foldl (λ d f, <[path_rel f := f]> d) ∅ files.

(** ** Key resolver *)

(** The patterns of the image glob, in source order. *)
Definition image_extensions : list string :=
  ["png"; "jpg"; "jpeg"; "bmp"; "webp"; "PNG"; "JPG"; "JPEG"; "BMP"; "WEBP"].

(** The closure [join] of [folder_to_keys], with the variable [keys] it
    reads passed in. *)
Definition join (keys : option (gset string)) (new_set : gset string)
    : gset string :=
  match keys with
  | Some ks => new_set ∩ ks
  | None => new_set
  end.

Abbreviation FileMap := (option (gmap string Path)).

Definition folder_to_keys (folder : Folder)
    (enable_text enable_image enable_metadata : bool)
    : Res (list string * FileMap * FileMap * FileMap) :=
  let text_files : FileMap :=
    if enable_text then Some (files_by_key (glob folder "txt")) else None in
  let image_files : FileMap :=
    if enable_image
    then Some (files_by_key (mjoin (glob folder <$> image_extensions)))
    else None in
  let metadata_files : FileMap :=
    if enable_metadata then Some (files_by_key (glob folder "json")) else None in
  let keys : option (gset string) := None in
  keys ← (if enable_text then
            tf ← not_none text_files; mret (Some (join keys (dom tf)))
          else if enable_image then
            imf ← not_none image_files; mret (Some (join keys (dom imf)))
          else if enable_metadata then
            mf ← not_none metadata_files; mret (Some (join keys (dom mf)))
          else mret keys);
  keys ← sorted keys;
  mret (keys, text_files, image_files, metadata_files).

(** ** What lies outside the reader *)

(** The image library, the file system contents and the codec, and the
    types the injected transform and tokenizer produce. *)
Class Runtime : Type := {
  Image : Type;
  Tensor : Type;
  Tokens : Type;
  (** [Image.open(file)] *)
  Image_open : Path → Res Image;
  (** [Image.open(io.BytesIO(data))] *)
  Image_open_bytes : string → Res Image;
  (** [file.read_text()] *)
  read_text : Path → Res string;
  (** [data.decode("utf-8")] *)
  decode_utf8 : string → Res string;
}.

(** Values stored in a decoded record. *)
Inductive Value `{Runtime} : Type :=
| VStr (s : string)
| VBytes (b : string)
| VTensor (t : Tensor)
| VTokens (t : Tokens).

(** A decoded record: field name to value. *)
Abbreviation Sample := (gmap string Value).

(** A batch: field name to the values of that field across the stacked
    records, the i-th stacked record at position i. *)
Abbreviation Batch := (gmap string (list Value)).

(** [lambda text: tokenizer([text])[0]] *)
Definition tokenize_one `{Runtime} (tokenizer : list string → Res (list Tokens))
    (text : string) : Eff Tokens :=
  encoded ← call (EvTokenizer [text]) (tokenizer [text]);
  lift (list_getitem encoded 0).

(** ** Folder loader *)

Record ImageDataset `{Runtime} : Type := {
  self_keys : list string;
  self_enable_text : bool;
  self_enable_image : bool;
  self_enable_metadata : bool;
  self_tokenizer : option (string → Eff Tokens);
  self_text_files : FileMap;
  self_image_files : FileMap;
  self_image_transform : option (Image → Res Tensor);
  self_metadata_files : FileMap;
}.

(** [lambda a: a], the default of [input_sampler]. *)
Definition default_input_sampler (a : list string) : list string := a.

(** [{k: v for k, v in files.items() if k in keys_set}] *)
Definition restrict (files : FileMap) (keys_set : gset string)
    : Res (gmap string Path) :=
  d ← not_none files;
  mret (filter (λ kv, kv.1 ∈ keys_set) d).

Definition ImageDataset_init `{Runtime}
    (preprocess : Image → Res Tensor)
    (tokenizer : list string → Res (list Tokens))
    (folder : Folder)
    (enable_text enable_image enable_metadata : bool)
    (input_sampler : list string → list string) : Eff ImageDataset :=
  '(keys, text_files, image_files, metadata_files) ←
    lift (folder_to_keys folder enable_text enable_image enable_metadata);
  keys ← call (EvSampler keys) (Ok (input_sampler keys));
  let keys_set : gset string := list_to_set keys in
  text_files' ← lift (if enable_text
                      then Some <$> restrict text_files keys_set
                      else mret None);
  image_files' ← lift (if enable_image
                       then Some <$> restrict image_files keys_set
                       else mret None);
  metadata_files' ← lift (if enable_metadata
                          then Some <$> restrict metadata_files keys_set
                          else mret None);
  mret {| self_keys := keys;
          self_enable_text := enable_text;
          self_enable_image := enable_image;
          self_enable_metadata := enable_metadata;
          self_tokenizer :=
            if enable_text then Some (tokenize_one tokenizer) else None;
          self_text_files := text_files';
          self_image_files := image_files';
          self_image_transform :=
            if enable_image then Some preprocess else None;
          self_metadata_files := metadata_files' |}.

Definition ImageDataset_len `{Runtime} (self : ImageDataset) : nat :=
  length (self_keys self).

(** The exceptions of [except (UnidentifiedImageError, OSError)]. *)
Definition is_image_load_error (e : Exn) : bool :=
  match e with
  | UnidentifiedImageError _ | OSError _ => true
  | _ => false
  end.

Definition load_failure_message (image_file : Path) (e : Exn) : string :=
  "Failed to load image " +:+ path_str image_file +:+ ". Error: "
    +:+ exn_str e +:+ ". Skipping.".

(** The image block of [__getitem__]: [None] stands for the early
    [return None] of the except branch, [Some output] for falling through
    with the updated record. *)
Definition getitem_image `{Runtime} (self : ImageDataset) (key : string)
    (output : Sample) : Eff (option Sample) :=
  if self_enable_image self then
    image_files ← lift (not_none (self_image_files self));
    image_file ← lift (dict_getitem image_files key);
    loaded ← try_except
      (image_transform ← lift (not_none (self_image_transform self));
       image ← call (EvImageOpen (path_str image_file)) (Image_open image_file);
       image_tensor ← call EvTransform (image_transform image);
       mret (Some image_tensor))
      is_image_load_error
      (λ e, emit (EvPrint (load_failure_message image_file e));; mret None);
    match loaded with
    | None => mret None
    | Some image_tensor =>
        let output := <["image_filename" := VStr (path_str image_file)]> output in
        let output := <["image_tensor" := VTensor image_tensor]> output in
        mret (Some output)
    end
  else mret (Some output).

Definition getitem_text `{Runtime} (self : ImageDataset) (key : string)
    (output : Sample) : Eff Sample :=
  if self_enable_text self then
    text_files ← lift (not_none (self_text_files self));
    text_file ← lift (dict_getitem text_files key);
    caption ← call (EvReadText (path_str text_file)) (read_text text_file);
    tokenizer ← lift (not_none (self_tokenizer self));
    tokenized_text ← tokenizer caption;
    let output := <["text_tokens" := VTokens tokenized_text]> output in
    let output := <["text" := VStr caption]> output in
    mret output
  else mret output.

Definition getitem_metadata `{Runtime} (self : ImageDataset) (key : string)
    (output : Sample) : Eff Sample :=
  if self_enable_metadata self then
    metadata_files ← lift (not_none (self_metadata_files self));
    metadata_file ← lift (dict_getitem metadata_files key);
    metadata ← call (EvReadText (path_str metadata_file)) (read_text metadata_file);
    mret (<["metadata" := VStr metadata]> output)
  else mret output.

(** [ImageDataset.__getitem__]: the record, or [None] for a dropped one. *)
Definition ImageDataset_getitem `{Runtime} (self : ImageDataset) (ind : Z)
    : Eff (option Sample) :=
  key ← lift (list_getitem (self_keys self) ind);
  let output : Sample := ∅ in
  after_image ← getitem_image self key output;
  match after_image with
  | None => mret None
  | Some output =>
      output ← getitem_text self key output;
      output ← getitem_metadata self key output;
      mret (Some output)
  end.

(** ** Archive loader *)

(** A value of an archive entry: the bytes of a member file, or the
    string the container layer stores under [__key__] and [__url__]. *)
Inductive Field : Type :=
| FBytes (b : string)
| FStr (s : string).

(** An archive entry as the container layer yields it. *)
Abbreviation Item := (gmap string Field).

(** [io.BytesIO(data)] takes bytes only. *)
Definition bytes_io (data : Field) : Res string :=
  match data with
  | FBytes b => Ok b
  | FStr _ => Raise TypeError
  end.

(** [data.decode("utf-8")]; [str] has no [decode]. *)
Definition field_decode `{Runtime} (data : Field) : Res string :=
  match data with
  | FBytes b => decode_utf8 b
  | FStr _ => Raise AttributeError
  end.

Definition field_value `{Runtime} (data : Field) : Value :=
  match data with
  | FBytes b => VBytes b
  | FStr s => VStr s
  end.

(** [wds.WebDataset(urls, cache_dir=..., cache_size=..., handler=warn_and_continue)] *)
Record WebDataset : Type := {
  wds_urls : list string;
  wds_cache_dir : option string;
  wds_cache_size : Z;
}.

(** [dataset.select(predicate).map(f, handler=warn_and_continue)] *)
Record TransformedDataset `{Runtime} : Type := {
  td_source : WebDataset;
  td_select : Item → bool;
  td_map : Item → Eff Sample;
}.

(** [key in item], as a boolean. *)
Definition has_field (item : Item) (key : string) : bool :=
  bool_decide (is_Some (item !! key)).

Definition filter_dataset (enable_text enable_image enable_metadata : bool)
    (image_key caption_key : string) (item : Item) : bool :=
  if enable_text && negb (has_field item caption_key) then false
  else if enable_image && negb (has_field item image_key) then false
  else if enable_metadata && negb (has_field item "json") then false
  else true.

Definition preprocess_dataset `{Runtime}
    (image_transform : Image → Res Tensor)
    (tokenizer : list string → Res (list Tokens))
    (enable_text enable_image enable_metadata : bool)
    (image_key caption_key : string) (item : Item) : Eff Sample :=
  let output : Sample := ∅ in
  output ← (if enable_image then
              image_data ← lift (dict_getitem item image_key);
              data ← lift (bytes_io image_data);
              image ← call (EvImageOpen data) (Image_open_bytes data);
              image_tensor ← call EvTransform (image_transform image);
              name ← lift (dict_getitem item "__key__");
              let output := <["image_filename" := field_value name]> output in
              mret (<["image_tensor" := VTensor image_tensor]> output)
            else mret output);
  output ← (if enable_text then
              text ← lift (dict_getitem item caption_key);
              caption ← lift (field_decode text);
              tokenized_text ← tokenize_one tokenizer caption;
              let output := <["text_tokens" := VTokens tokenized_text]> output in
              mret (<["text" := VStr caption]> output)
            else mret output);
  output ← (if enable_metadata then
              metadata_file ← lift (dict_getitem item "json");
              metadata ← lift (field_decode metadata_file);
              mret (<["metadata" := VStr metadata]> output)
            else mret output);
  mret output.

Definition create_webdataset `{Runtime}
    (urls : list string)
    (image_transform : Image → Res Tensor)
    (tokenizer : list string → Res (list Tokens))
    (enable_text enable_image : bool)
    (image_key caption_key : string)
    (enable_metadata : bool)
    (cache_path : option string)
    (input_sampler : list string → list string) : Eff TransformedDataset :=
  urls ← call (EvSampler urls) (Ok (input_sampler urls));
  let dataset :=
    {| wds_urls := urls; wds_cache_dir := cache_path; wds_cache_size := 10 ^ 10 |} in
  mret {| td_source := dataset;
          td_select := filter_dataset enable_text enable_image enable_metadata
                         image_key caption_key;
          td_map := preprocess_dataset image_transform tokenizer
                      enable_text enable_image enable_metadata
                      image_key caption_key |}.

(** One entry through [select] then [map]: an entry the predicate
    refuses is skipped before the mapped function is called; an exception
    of the mapped function goes to [warn_and_continue], which warns and
    skips the entry. Fields that the container layer may add to a mapped
    record for its own bookkeeping are left out. *)
Definition process_entry `{Runtime} (ds : TransformedDataset) (item : Item)
    : list Event * list Sample :=
  if td_select ds item then
    match td_map ds item with
    | (t, Ok sample) => (t, [sample])
    | (t, Raise e) => (t ++ [EvWarn e], [])
    end
  else ([], []).

(** Iterating the transformed dataset over the entries that the shards
    yield, in stream order. *)
Fixpoint iterate `{Runtime} (ds : TransformedDataset) (stream : list Item)
    : list Event * list Sample :=
  match stream with
  | [] => ([], [])
  | item :: rest =>
      let '(t, out) := process_entry ds item in
      let '(t', outs) := iterate ds rest in
      (t ++ t', out ++ outs)
  end.

(** ** Batch assembler *)

(** [[d[key] for d in batch]] *)
Fixpoint column `{Runtime} (batch : list (option Sample)) (key : string)
    : Res (list Value) :=
  match batch with
  | [] => Ok []
  | d :: rest =>
      v ← match d with
          | Some d => dict_getitem d key
          | None => Raise TypeError
          end;
      vs ← column rest key;
      mret (v :: vs)
  end.

(** [{key: collate([d[key] for d in batch]) for key in elem}] over the
    keys of the first record. *)
Definition collate_columns `{Runtime} (batch : list (option Sample))
    (keys : list string) : Res Batch :=
  foldr (λ key acc, col ← column batch key; out ← acc; mret (<[key := col]> out))
        (Ok ∅) keys.

(** [torch.utils.data.default_collate] on a list of records: it reads
    the field names off the first element and stacks each field across
    the batch. Stacking is kept as the ordered list of the stacked
    values. *)
Definition default_collate `{Runtime} (batch : list (option Sample)) : Res Batch :=
  match batch with
  | [] => Raise IndexError
  | None :: _ => Raise TypeError
  | Some elem :: _ => collate_columns batch (elements (dom elem))
  end.

(** [lambda x: x is not None] *)
Definition is_not_none {A} (x : option A) : bool :=
  match x with
  | Some _ => true
  | None => false
  end.

(** The closure [collate_fn] of [dataset_to_dataloader]. *)
Definition collate_fn `{Runtime} (batch : list (option Sample)) : Res Batch :=
  let batch := List.filter is_not_none batch in
  default_collate batch.

(** The [DataLoader] as the reader sets it up: the dataset, the batch
    size, the number of workers and the collate function. The loader
    hands out batches in dataset order whatever the number of workers,
    so the iteration below is the sequential one. *)
Record DataLoader `{Runtime} (D : Type) : Type := {
  dl_dataset : D;
  dl_batch_size : nat;
  dl_num_workers : nat;
  dl_collate : list (option Sample) → Res Batch;
}.
Arguments dl_dataset {_ _} _.
Arguments dl_batch_size {_ _} _.
Arguments dl_num_workers {_ _} _.
Arguments dl_collate {_ _} _.

(** [DataLoader] refuses a batch size that is not positive; a collate
    function of [None] stands for the default one. *)
Definition dataset_to_dataloader `{Runtime} {D : Type} (dataset : D)
    (batch_size num_prepro_workers : nat) (input_format : string)
    : Res (DataLoader D) :=
  if Nat.eqb batch_size 0 then Raise ValueError
  else Ok {| dl_dataset := dataset;
             dl_batch_size := batch_size;
             dl_num_workers := num_prepro_workers;
             dl_collate := if String.eqb input_format "files" then collate_fn
                           else default_collate |}.

(** Consecutive runs of [n] elements, the last one possibly shorter. *)
Fixpoint chunks_fuel {A} (fuel n : nat) (l : list A) : list (list A) :=
  match fuel, l with
  | _, [] => []
  | O, _ => []
  | S fuel, _ => take n l :: chunks_fuel fuel n (drop n l)
  end.

Definition chunks {A} (n : nat) (l : list A) : list (list A) :=
  chunks_fuel (length l) n l.

(** Batches of an iterable dataset: the records are grouped in stream
    order and each group collated; the first exception ends the
    iteration. *)
Fixpoint collate_all `{Runtime} (collate : list (option Sample) → Res Batch)
    (groups : list (list (option Sample))) : list Batch * option Exn :=
  match groups with
  | [] => ([], None)
  | g :: rest =>
      match collate g with
      | Ok b => let '(bs, e) := collate_all collate rest in (b :: bs, e)
      | Raise e => ([], Some e)
      end
  end.

(** ** The two readers *)

Record WebdatasetReader `{Runtime} : Type := {
  wr_batch_size : nat;
  wr_dataloader : DataLoader TransformedDataset;
}.

Definition WebdatasetReader_init `{Runtime}
    (sampler : list string → list string)
    (preprocess : Image → Res Tensor)
    (tokenizer : list string → Res (list Tokens))
    (input_dataset : list string)
    (batch_size num_prepro_workers : nat)
    (enable_text enable_image enable_metadata : bool)
    (wds_image_key wds_caption_key : string)
    (cache_path : option string) : Eff WebdatasetReader :=
  dataset ← create_webdataset input_dataset preprocess tokenizer
              enable_text enable_image wds_image_key wds_caption_key
              enable_metadata cache_path sampler;
  dataloader ← lift (dataset_to_dataloader dataset batch_size
                       num_prepro_workers "webdataset");
  mret {| wr_batch_size := batch_size; wr_dataloader := dataloader |}.

(** [WebdatasetReader.__iter__] over the entries the shards yield: the
    trace, the batches yielded, and the exception that ended the
    iteration, if any. *)
Definition WebdatasetReader_iter `{Runtime} (reader : WebdatasetReader)
    (stream : list Item) : list Event * list Batch * option Exn :=
  let dl := wr_dataloader reader in
  let '(t, samples) := iterate (dl_dataset dl) stream in
  let '(batches, e) :=
    collate_all (dl_collate dl) (chunks (dl_batch_size dl) (Some <$> samples)) in
  (t, batches, e).

Record FilesReader `{Runtime} : Type := {
  fr_dataloader : DataLoader ImageDataset;
}.

Definition FilesReader_init `{Runtime}
    (sampler : list string → list string)
    (preprocess : Image → Res Tensor)
    (tokenizer : list string → Res (list Tokens))
    (input_dataset : Folder)
    (batch_size num_prepro_workers : nat)
    (enable_text enable_image enable_metadata : bool) : Eff FilesReader :=
  dataset ← ImageDataset_init preprocess tokenizer input_dataset
              enable_text enable_image enable_metadata sampler;
  dataloader ← lift (dataset_to_dataloader dataset batch_size
                       num_prepro_workers "files");
  mret {| fr_dataloader := dataloader |}.

(** [[dataset[i] for i in indices]] *)
Fixpoint fetch `{Runtime} (dataset : ImageDataset) (indices : list Z)
    : Eff (list (option Sample)) :=
  match indices with
  | [] => mret []
  | i :: rest =>
      x ← ImageDataset_getitem dataset i;
      xs ← fetch dataset rest;
      mret (x :: xs)
  end.

(** Batches of the folder dataset, one per group of indices. *)
Fixpoint files_batches `{Runtime} (dl : DataLoader ImageDataset)
    (groups : list (list Z)) : list Event * list Batch * option Exn :=
  match groups with
  | [] => ([], [], None)
  | g :: rest =>
      match fetch (dl_dataset dl) g with
      | (t, Raise e) => (t, [], Some e)
      | (t, Ok records) =>
          match dl_collate dl records with
          | Raise e => (t, [], Some e)
          | Ok b =>
              let '(t', bs, e) := files_batches dl rest in
              (t ++ t', b :: bs, e)
          end
      end
  end.

(** [FilesReader.__iter__]: indices [0 .. len-1] in order, grouped by the
    batch size. *)
Definition FilesReader_iter `{Runtime} (reader : FilesReader)
    : list Event * list Batch * option Exn :=
  let dl := fr_dataloader reader in
  let n := ImageDataset_len (dl_dataset dl) in
  files_batches dl (chunks (dl_batch_size dl) (Z.of_nat <$> seq 0 n)).

(** ** Reference notions used to state the properties *)

(** ASCII lower-casing, as [str.lower] acts on file extensions. *)
Definition lower_ascii (c : Ascii.ascii) : Ascii.ascii :=
  let n := Ascii.N_of_ascii c in
  if ((65 <=? n) && (n <=? 90))%N then Ascii.ascii_of_N (n + 32) else c.

Fixpoint lower (s : string) : string :=
  match s with
  | EmptyString => EmptyString
  | String c s' => String (lower_ascii c) (lower s')
  end.

(** ASCII upper-casing. *)
Definition upper_ascii (c : Ascii.ascii) : Ascii.ascii :=
  let n := Ascii.N_of_ascii c in
  if ((97 <=? n) && (n <=? 122))%N then Ascii.ascii_of_N (n - 32) else c.

Fixpoint upper (s : string) : string :=
  match s with
  | EmptyString => EmptyString
  | String c s' => String (upper_ascii c) (upper s')
  end.

(** The five image extensions of the design. *)
Definition image_extension_names : list string :=
  ["png"; "jpg"; "jpeg"; "bmp"; "webp"].

(** Following the design's words: the extension is one of the five,
    compared without regard to case. *)
Definition has_image_extension_ci (rel : string) : bool :=
  existsb (λ ext, endswith (lower rel) ("." +:+ ext)) image_extension_names.

(** Following the design's words: the usable key set is the intersection
    of the key collections of every enabled modality. *)
Definition usable_keys_by_intersection (text_keys image_keys metadata_keys : gset string)
    (enable_text enable_image enable_metadata : bool) : option (gset string) :=
  let collections :=
    (if enable_text then [text_keys] else []) ++
    (if enable_image then [image_keys] else []) ++
    (if enable_metadata then [metadata_keys] else []) in
  match collections with
  | [] => None
  | c :: cs => Some (foldl (∩) c cs)
  end.

(** The records of a batch that are not the dropped sentinel, in their
    order, and the number of those that are. *)
Definition survivors {A} (records : list (option A)) : list A := omap id records.

Definition dropped {A} (records : list (option A)) : nat :=
  length (List.filter (λ x, negb (is_not_none x)) records).

(** The three file maps that [folder_to_keys] builds, by name. *)
Definition text_files_of (folder : Folder) : gmap string Path :=
  files_by_key (glob folder "txt").

Definition image_files_of (folder : Folder) : gmap string Path :=
  files_by_key (mjoin (glob folder <$> image_extensions)).

Definition metadata_files_of (folder : Folder) : gmap string Path :=
  files_by_key (glob folder "json").

(** The anchor of [folder_to_keys]: the first enabled modality in the
    order text, image, metadata. *)
Definition anchor_keys (folder : Folder)
    (enable_text enable_image enable_metadata : bool) : option (gset string) :=
  if enable_text then Some (dom (text_files_of folder))
  else if enable_image then Some (dom (image_files_of folder))
  else if enable_metadata then Some (dom (metadata_files_of folder))
  else None.

(** Lexicographic order without repetition. *)
Definition sorted_keys (keys : list string) : Prop :=
  StronglySorted String.le keys ∧ NoDup keys.

(** The dataset that [ImageDataset.__init__] builds once the sampler has
    returned [keys]. *)
Definition built `{Runtime}
    (preprocess : Image → Res Tensor)
    (tokenizer : list string → Res (list Tokens))
    (folder : Folder) (et ei em : bool) (keys : list string) : ImageDataset :=
  let keys_set : gset string := list_to_set keys in
  {| self_keys := keys;
     self_enable_text := et;
     self_enable_image := ei;
     self_enable_metadata := em;
     self_tokenizer := if et then Some (tokenize_one tokenizer) else None;
     self_text_files :=
       if et then Some (filter (λ kv, kv.1 ∈ keys_set) (text_files_of folder))
       else None;
     self_image_files :=
       if ei then Some (filter (λ kv, kv.1 ∈ keys_set) (image_files_of folder))
       else None;
     self_image_transform := if ei then Some preprocess else None;
     self_metadata_files :=
       if em then Some (filter (λ kv, kv.1 ∈ keys_set) (metadata_files_of folder))
       else None |}.

(** The extensions globbed for the anchor modality: the first enabled
    one in the order text, image, metadata. *)
Definition anchor_extensions (et ei em : bool) : list string :=
  if et then ["txt"] else if ei then image_extensions
  else if em then ["json"] else [].

(** The path ends in a dot followed by one of the extensions. *)
Definition has_extension (exts : list string) (rel : string) : bool :=
  existsb (λ ext, endswith rel ("." +:+ ext)) exts.

(** The field names of a record, by the modalities that are enabled. *)
Definition record_fields (et ei em : bool) : gset string :=
  (if ei then {["image_filename"; "image_tensor"]} else ∅) ∪
  (if et then {["text_tokens"; "text"]} else ∅) ∪
  (if em then {["metadata"]} else ∅).

(** ** A small concrete world, used to run the definitions *)

Module Demo.

(** Images are named by where they come from, tensors and token
    encodings by what they were computed from. A file whose name starts
    with [corrupt] cannot be identified as an image; empty bytes cannot
    either. *)
Definition runtime : Runtime :=
  {| Image := string;
     Tensor := string;
     Tokens := nat;
     Image_open := λ p,
       if String.prefix "corrupt" (path_rel p)
       then Raise (UnidentifiedImageError ("cannot identify image file '" +:+ path_str p +:+ "'"))
       else Ok (path_str p);
     Image_open_bytes := λ b,
       if String.eqb b "" then Raise (UnidentifiedImageError "cannot identify image file")
       else Ok b;
     read_text := λ p, Ok ("content of " +:+ path_rel p);
     decode_utf8 := λ b, Ok b |}.

Definition preprocess (image : string) : Res string := Ok ("tensor:" +:+ image).

Definition tokenizer (texts : list string) : Res (list nat) :=
  Ok (String.length <$> texts).

Definition folder : Folder :=
  {| folder_root := "data"; folder_entries := ["a.jpg"; "a.txt"; "b.jpg"] |}.

Definition images_only : Folder :=
  {| folder_root := "data"; folder_entries := ["corrupt.jpg"; "ok.png"] |}.

Definition captions_only : Folder :=
  {| folder_root := "data"; folder_entries := ["a.txt"; "sub/b.txt"] |}.

Definition mixed_case : Folder :=
  {| folder_root := "data"; folder_entries := ["a.Png"] |}.

Definition entry : Item :=
  {[ "__key__" := FStr "000"; "jpg" := FBytes "pixels"; "txt" := FBytes "a cat" ]}.

Definition four_images : Folder :=
  {| folder_root := "data";
     folder_entries := ["a.jpg"; "b.png"; "corrupt.jpg"; "d.webp"] |}.

Definition entry_without_caption : Item :=
  {[ "__key__" := FStr "001"; "jpg" := FBytes "pixels" ]}.

Definition four_images_reader : @FilesReader runtime :=
  {| fr_dataloader :=
       {| dl_dataset := built (H := runtime) preprocess tokenizer four_images
                          false true false
                          ["a.jpg"; "b.png"; "corrupt.jpg"; "d.webp"];
          dl_batch_size := 4;
          dl_num_workers := 0;
          dl_collate := collate_fn |} |}.

Definition four_images_batch : gmap string (list (@Value runtime)) :=
  {[ "image_filename" :=
       [@VStr runtime "data/a.jpg"; @VStr runtime "data/b.png";
        @VStr runtime "data/d.webp"];
     "image_tensor" :=
       [@VTensor runtime "tensor:data/a.jpg"; @VTensor runtime "tensor:data/b.png";
        @VTensor runtime "tensor:data/d.webp"] ]}.

(** The records expected for the caption file [sub/b.txt] and for
    [entry] when only text is enabled. *)
Definition caption_record : gmap string (@Value runtime) :=
  <["text" := @VStr runtime "content of sub/b.txt"]>
    (<["text_tokens" := @VTokens runtime 20]> ∅).

Definition entry_record : gmap string (@Value runtime) :=
  <["text" := @VStr runtime "a cat"]> (<["text_tokens" := @VTokens runtime 5]> ∅).

(** A transform that refuses one image with an exception of its own. *)
Definition picky_preprocess (image : string) : Res string :=
  if String.eqb image "data/b.jpg" then Raise (OtherError "image too large")
  else Ok ("tensor:" +:+ image).

Definition entry_empty_image : Item :=
  {[ "__key__" := FStr "002"; "jpg" := FBytes ""; "txt" := FBytes "nothing" ]}.

Definition entry_without_key : Item := {[ "jpg" := FBytes "pixels" ]}.

Definition entry_with_metadata : Item :=
  {[ "__key__" := FStr "003"; "json" := FBytes "{not parsed" ]}.

Definition no_images : Folder :=
  {| folder_root := "data"; folder_entries := ["notes.md"; "a.txt"] |}.

End Demo.

(** * Properties *)

(** ** The effect monad *)

Lemma eff_bind_ok {A B} (f : A → Eff B) (t : list Event) (a : A) :
  (t, Ok a) ≫= f = (t ++ (f a).1, (f a).2).
Proof. unfold mbind, eff_mbind; simpl. by destruct (f a). Qed.

Lemma eff_bind_raise {A B} (f : A → Eff B) (t : list Event) (e : Exn) :
  (t, Raise e) ≫= f = (t, Raise e).
Proof. reflexivity. Qed.

Lemma eff_bind_lift_ok {A B} (f : A → Eff B) (a : A) :
  lift (Ok a) ≫= f = f a.
Proof. unfold lift. rewrite eff_bind_ok. by destruct (f a). Qed.

Lemma eff_bind_ret {A B} (f : A → Eff B) (a : A) : mret a ≫= f = f a.
Proof. apply eff_bind_lift_ok. Qed.

Lemma eff_bind_call_ok {A B} (f : A → Eff B) ev (a : A) :
  call ev (Ok a) ≫= f = ([ev] ++ (f a).1, (f a).2).
Proof. apply eff_bind_ok. Qed.

(** Inversion of a bind that returned. *)
Lemma eff_bind_inv_ok {A B} (m : Eff A) (f : A → Eff B) t b :
  m ≫= f = (t, Ok b) →
  ∃ t1 a t2, m = (t1, Ok a) ∧ f a = (t2, Ok b) ∧ t = t1 ++ t2.
Proof.
  destruct m as [t1 [a|e]]; [|discriminate].
  rewrite eff_bind_ok. destruct (f a) as [t2 r] eqn:Hf; simpl.
  intros [= <- ->]. by exists t1, a, t2.
Qed.

Lemma lift_inv_ok {A} (r : Res A) t a : lift r = (t, Ok a) → r = Ok a ∧ t = [].
Proof. unfold lift. by intros [= <- ->]. Qed.

Lemma call_inv_ok {A} ev (r : Res A) t a :
  call ev r = (t, Ok a) → r = Ok a ∧ t = [ev].
Proof. unfold call. by intros [= <- ->]. Qed.

Lemma res_bind_inv_ok {A B} (r : Res A) (f : A → Res B) b :
  r ≫= f = Ok b → ∃ a, r = Ok a ∧ f a = Ok b.
Proof. destruct r as [a|e]; [|discriminate]. intros Hf. by exists a. Qed.

Lemma not_none_inv_ok {A} (o : option A) a : not_none o = Ok a → o = Some a.
Proof. destruct o; simpl; congruence. Qed.

Lemma dict_getitem_inv_ok {V} (d : gmap string V) key v :
  dict_getitem d key = Ok v → d !! key = Some v.
Proof. unfold dict_getitem. destruct (d !! key); congruence. Qed.

Lemma dict_getitem_missing {V} (d : gmap string V) key :
  d !! key = None → dict_getitem d key = Raise (KeyError key).
Proof. unfold dict_getitem. by intros ->. Qed.

(** ** Indexing *)

Lemma list_getitem_cases {A} (l : list A) (i : Z) :
  (∃ x, list_getitem l i = Ok x ∧ x ∈ l) ∨ list_getitem l i = Raise IndexError.
Proof.
  unfold list_getitem. destruct (_ && _); [|by right].
  destruct (l !! _) as [x|] eqn:Hx; [left|by right].
  exists x. split; [done|]. by eapply list_elem_of_lookup_2.
Qed.

Lemma list_getitem_nat {A} (l : list A) (n : nat) x :
  l !! n = Some x → list_getitem l (Z.of_nat n) = Ok x.
Proof.
  intros Hx. pose proof (lookup_lt_Some _ _ _ Hx) as Hlt.
  unfold list_getitem.
  replace (Z.of_nat n <? 0)%Z with false by (symmetry; apply Z.ltb_ge; lia).
  replace ((0 <=? Z.of_nat n) && (Z.of_nat n <? Z.of_nat (length l)))%Z with true.
  - by rewrite Nat2Z.id, Hx.
  - symmetry. apply andb_true_iff. split; [apply Z.leb_le|apply Z.ltb_lt]; lia.
Qed.

Lemma list_getitem_first {A} (l : list A) x :
  list_getitem l 0 = Ok x ↔ l !! 0%nat = Some x.
Proof.
  destruct l as [|y l].
  - split; [|done]. by unfold list_getitem.
  - unfold list_getitem. simpl.
    replace (0 <? Z.pos (Pos.of_succ_nat (length l)))%Z with true
      by (symmetry; apply Z.ltb_lt; lia).
    simpl. split; congruence.
Qed.

(** ** Suffixes *)

Lemma append_empty s : "" +:+ s = s.
Proof. reflexivity. Qed.

Lemma append_cons c p s : String c p +:+ s = String c (p +:+ s).
Proof. reflexivity. Qed.

Lemma endswith_refl s : endswith s s = true.
Proof. destruct s; cbn [endswith]; by rewrite String.eqb_refl. Qed.

Lemma endswith_cons c s suffix :
  endswith (String c s) suffix = true ↔
  String c s = suffix ∨ endswith s suffix = true.
Proof.
  cbn [endswith]. destruct (String.eqb_spec (String c s) suffix) as [Heq|Hne].
  - split; [by left|done].
  - split; [by right|]. by intros [?|?].
Qed.

Lemma endswith_spec s suffix :
  endswith s suffix = true ↔ ∃ p, s = p +:+ suffix.
Proof.
  induction s as [|c s IH].
  - cbn [endswith]. destruct (String.eqb_spec "" suffix) as [<-|Hne].
    + split; [|done]. by exists "".
    + split; [done|]. intros [[|??] Hp]; [by rewrite append_empty in Hp|].
      by rewrite append_cons in Hp.
  - rewrite endswith_cons, IH. split.
    + intros [<-|[p ->]]; [by exists ""|by exists (String c p)].
    + intros [[|c' p] Hp]; [rewrite append_empty in Hp; by left|].
      rewrite append_cons in Hp. injection Hp as -> ->. right. by exists p.
Qed.

(** Two suffixes of one string: one is a suffix of the other. *)
Lemma endswith_comparable s a b :
  endswith s a = true → endswith s b = true →
  endswith a b = true ∨ endswith b a = true.
Proof.
  induction s as [|c s IH]; intros Ha Hb.
  - cbn [endswith] in Ha, Hb.
    destruct (String.eqb_spec "" a) as [<-|]; [|done].
    destruct (String.eqb_spec "" b) as [<-|]; [|done]. by left.
  - apply endswith_cons in Ha. destruct Ha as [Heq|Ha].
    { subst a. left. exact Hb. }
    apply endswith_cons in Hb. destruct Hb as [Heq|Hb].
    { subst b. right. cbn [endswith]. destruct (String.eqb (String c s) a); auto. }
    auto.
Qed.

(** ** Files and keys *)

Lemma elem_of_glob folder ext p :
  p ∈ glob folder ext ↔
  path_root p = folder_root folder ∧ path_rel p ∈ folder_entries folder ∧
  endswith (path_rel p) ("." +:+ ext) = true.
Proof.
  unfold glob. rewrite list_elem_of_fmap. split.
  - intros (rel & -> & Hrel). apply list_elem_of_In, filter_In in Hrel as [Hin ?].
    by apply list_elem_of_In in Hin.
  - intros (Hroot & Hin & Hext). exists (path_rel p). split.
    + destruct p as [r k]; simpl in *. by subst r.
    + apply list_elem_of_In, filter_In. by rewrite <- list_elem_of_In.
Qed.

Lemma elem_of_globs folder exts p :
  p ∈ mjoin (glob folder <$> exts) ↔
  path_root p = folder_root folder ∧ path_rel p ∈ folder_entries folder ∧
  ∃ ext, ext ∈ exts ∧ endswith (path_rel p) ("." +:+ ext) = true.
Proof.
  rewrite list_elem_of_join. split.
  - intros (l & Hp & Hl). apply list_elem_of_fmap in Hl as (ext & -> & Hext).
    apply elem_of_glob in Hp as (? & ? & ?). eauto 6.
  - intros (Hroot & Hin & ext & Hext & Hsuf). exists (glob folder ext). split.
    + by apply elem_of_glob.
    + apply list_elem_of_fmap. eauto.
Qed.

Lemma files_by_key_acc_lookup files (d : gmap string Path) k p :
  foldl (λ d f, <[path_rel f := f]> d) d files !! k = Some p →
  (p ∈ files ∧ path_rel p = k) ∨ d !! k = Some p.
Proof.
  revert d. induction files as [|f files IH]; intros d; simpl; [by right|].
  intros H. apply IH in H as [[Hin Hk]|Hd].
  - left. split; [by right|done].
  - destruct (decide (path_rel f = k)) as [Heq|Hne].
    + rewrite <- Heq, lookup_insert_eq in Hd. injection Hd as <-.
      left. split; [by left|done].
    + rewrite lookup_insert_ne in Hd by done. by right.
Qed.

Lemma files_by_key_acc_is_Some files (d : gmap string Path) k :
  (∃ p, p ∈ files ∧ path_rel p = k) ∨ is_Some (d !! k) →
  is_Some (foldl (λ d f, <[path_rel f := f]> d) d files !! k).
Proof.
  revert d. induction files as [|f files IH]; intros d; simpl.
  - intros [(p & Hin & _)|Hd]; [by apply elem_of_nil in Hin|done].
  - intros [(p & Hin & Hk)|Hd]; apply IH.
    + apply elem_of_cons in Hin as [->|Hin]; [right|left; eauto].
      rewrite <- Hk, lookup_insert_eq. eauto.
    + right. destruct (decide (path_rel f = k)) as [<-|Hne].
      * rewrite lookup_insert_eq. eauto.
      * by rewrite lookup_insert_ne.
Qed.

Lemma files_by_key_lookup files k p :
  files_by_key files !! k = Some p → p ∈ files ∧ path_rel p = k.
Proof.
  intros H. apply files_by_key_acc_lookup in H as [H|H]; [done|].
  by rewrite lookup_empty in H.
Qed.

Lemma elem_of_dom_files_by_key files k :
  k ∈ dom (files_by_key files) ↔ ∃ p, p ∈ files ∧ path_rel p = k.
Proof.
  rewrite elem_of_dom. split.
  - intros [p Hp]. exists p. by apply files_by_key_lookup.
  - intros Hp. apply files_by_key_acc_is_Some. by left.
Qed.

(** The keys of a globbed file map are the entries with one of the
    suffixes, and each key maps to the path of that entry. *)
Lemma globbed_keys folder exts k :
  k ∈ dom (files_by_key (mjoin (glob folder <$> exts))) ↔
  k ∈ folder_entries folder ∧
  ∃ ext, ext ∈ exts ∧ endswith k ("." +:+ ext) = true.
Proof.
  rewrite elem_of_dom_files_by_key. split.
  - intros (p & Hp & <-). apply elem_of_globs in Hp as (_ & ? & ?). done.
  - intros (Hin & Hext).
    exists {| path_root := folder_root folder; path_rel := k |}.
    split; [|done]. by apply elem_of_globs.
Qed.

Lemma globbed_lookup folder exts k p :
  files_by_key (mjoin (glob folder <$> exts)) !! k = Some p →
  p = {| path_root := folder_root folder; path_rel := k |}.
Proof.
  intros (Hp & <-)%files_by_key_lookup.
  apply elem_of_globs in Hp as (Hroot & _). destruct p; simpl in *. by subst.
Qed.

Lemma glob_single folder ext : glob folder ext = mjoin (glob folder <$> [ext]).
Proof. simpl. by rewrite app_nil_r. Qed.

Lemma text_keys folder k :
  k ∈ dom (text_files_of folder) ↔
  k ∈ folder_entries folder ∧ endswith k ".txt" = true.
Proof.
  unfold text_files_of. rewrite glob_single, globbed_keys. split.
  - intros (? & ext & ->%list_elem_of_singleton & ?). done.
  - intros [? ?]. split; [done|]. exists "txt". split; [by left|done].
Qed.

Lemma image_keys folder k :
  k ∈ dom (image_files_of folder) ↔
  k ∈ folder_entries folder ∧
  ∃ ext, ext ∈ image_extensions ∧ endswith k ("." +:+ ext) = true.
Proof. apply globbed_keys. Qed.

(** No path ends both in [.txt] and in one of the image suffixes. *)
Lemma text_key_not_image_key folder k :
  k ∈ dom (text_files_of folder) → k ∉ dom (image_files_of folder).
Proof.
  intros [_ Htxt]%text_keys (_ & ext & Hext & Himg)%image_keys.
  destruct (endswith_comparable _ _ _ Htxt Himg) as [H|H];
    unfold image_extensions in Hext;
    repeat (apply elem_of_cons in Hext as [->|Hext]; [by vm_compute in H|]);
    by apply elem_of_nil in Hext.
Qed.

(** ** The key resolver *)

Lemma sorted_set ks :
  ∃ keys, sorted (Some ks) = Ok keys ∧ sorted_keys keys ∧ ∀ k, k ∈ keys ↔ k ∈ ks.
Proof.
  exists (merge_sort String.le (elements ks)). split; [done|].
  pose proof (merge_sort_Permutation String.le (elements ks)) as Hperm.
  repeat split.
  - apply StronglySorted_merge_sort; apply _.
  - rewrite Hperm. apply NoDup_elements.
  - rewrite Hperm. apply elem_of_elements.
  - rewrite Hperm. apply elem_of_elements.
Qed.

Lemma folder_to_keys_unfold folder et ei em :
  folder_to_keys folder et ei em =
  keys ← sorted (anchor_keys folder et ei em);
  mret (keys,
        if et then Some (text_files_of folder) else None,
        if ei then Some (image_files_of folder) else None,
        if em then Some (metadata_files_of folder) else None).
Proof. by destruct et, ei, em. Qed.

Lemma anchor_keys_enabled folder et ei em :
  et || ei || em = true → ∃ ks, anchor_keys folder et ei em = Some ks.
Proof. destruct et, ei, em; simpl; try done; eauto. Qed.

Lemma folder_to_keys_enabled folder et ei em :
  et || ei || em = true →
  ∃ keys,
    folder_to_keys folder et ei em =
      Ok (keys,
          if et then Some (text_files_of folder) else None,
          if ei then Some (image_files_of folder) else None,
          if em then Some (metadata_files_of folder) else None) ∧
    sorted_keys keys ∧
    ∀ ks, anchor_keys folder et ei em = Some ks → ∀ k, k ∈ keys ↔ k ∈ ks.
Proof.
  intros Hen. destruct (anchor_keys_enabled folder _ _ _ Hen) as [ks Hks].
  destruct (sorted_set ks) as (keys & Hsorted & Hord & Hmem).
  exists keys. rewrite folder_to_keys_unfold, Hks, Hsorted. split; [done|].
  split; [done|]. by intros ? [= <-].
Qed.

Lemma folder_to_keys_disabled folder :
  folder_to_keys folder false false false = Raise TypeError.
Proof. reflexivity. Qed.

(** ** Construction of the folder dataset *)

Section construction.
Context `{Runtime}.
Variable preprocess : Image → Res Tensor.
Variable tokenizer : list string → Res (list Tokens).

Lemma ImageDataset_init_enabled folder et ei em sampler :
  et || ei || em = true →
  ∃ keys,
    (∃ tf imf mf, folder_to_keys folder et ei em = Ok (keys, tf, imf, mf)) ∧
    sorted_keys keys ∧
    (∀ ks, anchor_keys folder et ei em = Some ks → ∀ k, k ∈ keys ↔ k ∈ ks) ∧
    ImageDataset_init preprocess tokenizer folder et ei em sampler =
      ([EvSampler keys], Ok (built preprocess tokenizer folder et ei em (sampler keys))).
Proof.
  intros Hen.
  destruct (folder_to_keys_enabled folder _ _ _ Hen) as (keys & Hk & Hord & Hmem).
  exists keys. split; [eauto|]. split; [done|]. split; [done|].
  unfold ImageDataset_init. rewrite Hk.
  by destruct et, ei, em.
Qed.

Lemma ImageDataset_init_disabled folder sampler :
  ImageDataset_init preprocess tokenizer folder false false false sampler =
    ([], Raise TypeError).
Proof. reflexivity. Qed.

End construction.

(** ** Sorted keys, then the sampler *)



(** ** The usable key set *)

(** X1. With text enabled the keys that [folder_to_keys] returns are
    the entries of the folder ending in [.txt], in sorted order, whether
    or not image or metadata is enabled too. *)
Lemma folder_to_keys_text_anchor folder ei em :
  ∃ keys,
    folder_to_keys folder true ei em =
      Ok (keys, Some (text_files_of folder),
          if ei then Some (image_files_of folder) else None,
          if em then Some (metadata_files_of folder) else None) ∧
    sorted_keys keys ∧
    ∀ k, k ∈ keys ↔ k ∈ folder_entries folder ∧ endswith k ".txt" = true.
Proof.
  destruct (folder_to_keys_enabled folder true ei em eq_refl)
    as (keys & Hk & Hord & Hmem).
  exists keys. split; [done|]. split; [done|].
  intros k. rewrite (Hmem _ eq_refl k). apply text_keys.
Qed.

(** C1. On the folder [a.jpg, a.txt, b.jpg] with text and image enabled,
    [folder_to_keys] returns the single key [a.txt]: the text keys alone,
    extension kept. That is neither the key [a] nor the intersection of
    the text keys with the image keys, which is empty here. *)
Theorem folder_to_keys_text_and_image :
  folder_to_keys Demo.folder true true false =
    Ok (["a.txt"], Some (text_files_of Demo.folder),
        Some (image_files_of Demo.folder), None) ∧
  elements (dom (text_files_of Demo.folder)) = ["a.txt"] ∧
  merge_sort String.le (elements (dom (image_files_of Demo.folder))) = ["a.jpg"; "b.jpg"] ∧
  (usable_keys_by_intersection
     (dom (text_files_of Demo.folder)) (dom (image_files_of Demo.folder)) ∅
     true true false
   ≫= λ ks, Some (elements ks)) = Some [].
Proof. repeat split; vm_compute; reflexivity. Qed.

(** ** Image extensions *)

Lemma image_extensions_cases :
  image_extensions = image_extension_names ++ (upper <$> image_extension_names).
Proof. reflexivity. Qed.

Lemma lower_append p s : lower (p +:+ s) = lower p +:+ lower s.
Proof.
  induction p as [|c p IH]; [done|].
  rewrite append_cons. cbn [lower]. by rewrite append_cons, IH.
Qed.

Lemma endswith_lower rel suffix :
  endswith rel suffix = true → endswith (lower rel) (lower suffix) = true.
Proof.
  rewrite !endswith_spec. intros [p ->]. exists (lower p). apply lower_append.
Qed.

Lemma image_extension_lower ext :
  ext ∈ image_extensions →
  ∃ name, name ∈ image_extension_names ∧ lower ("." +:+ ext) = "." +:+ name.
Proof.
  unfold image_extensions. intros Hext.
  repeat (apply elem_of_cons in Hext as [->|Hext];
          [eexists; split; [|vm_compute; reflexivity]; set_solver|]).
  by apply elem_of_nil in Hext.
Qed.

(** C8, as the code has it. With image enabled, an entry of the folder is
    in the image-file collection exactly when its path ends in a dot
    followed by one of png, jpg, jpeg, bmp, webp written entirely in
    lower case or entirely in upper case; every collected entry has one
    of the five extensions up to case. *)
Theorem image_files_by_listed_suffix (folder : Folder) (et em : bool) :
  image_extensions = image_extension_names ++ (upper <$> image_extension_names) ∧
  ∃ keys text_files image_files metadata_files,
    folder_to_keys folder et true em =
      Ok (keys, text_files, Some image_files, metadata_files) ∧
    (∀ rel, rel ∈ dom image_files ↔
            rel ∈ folder_entries folder ∧
            ∃ ext, ext ∈ image_extensions ∧ endswith rel ("." +:+ ext) = true) ∧
    (∀ rel, rel ∈ dom image_files → has_image_extension_ci rel = true).
Proof.
  split; [reflexivity|].
  destruct (folder_to_keys_enabled folder et true em) as (keys & Hk & _).
  { by destruct et. }
  eexists keys, _, (image_files_of folder), _. split; [exact Hk|].
  split; [apply image_keys|].
  intros rel (_ & ext & Hext & Hsuffix)%image_keys.
  apply endswith_lower in Hsuffix.
  destruct (image_extension_lower ext Hext) as (name & Hname & Hlower).
  rewrite Hlower in Hsuffix.
  apply existsb_exists. exists name. split; [by apply list_elem_of_In|done].
Qed.

(** Counterexample to C8 as stated: in the folder holding only [a.Png],
    whose extension is png up to case, membership in the image-file
    collection does not coincide with having one of the five extensions
    up to case. *)
Lemma mixed_case_extension_not_collected :
  ∃ keys text_files image_files metadata_files,
    folder_to_keys Demo.mixed_case false true false =
      Ok (keys, text_files, Some image_files, metadata_files) ∧
    ¬ (∀ rel, rel ∈ folder_entries Demo.mixed_case →
         (rel ∈ dom image_files ↔ has_image_extension_ci rel = true)).
Proof.
  exists [], None, ∅, None. split; [vm_compute; reflexivity|].
  intros Hall. destruct (Hall "a.Png") as [_ Hin]; [by left|].
  by apply (not_elem_of_empty (C := gset string) "a.Png"), Hin.
Qed.

(** ** The folder loader *)

Lemma list_getitem_in_range {A} (l : list A) (i : Z) :
  (- Z.of_nat (length l) ≤ i < Z.of_nat (length l))%Z →
  ∃ x, list_getitem l i = Ok x.
Proof.
  intros Hi. unfold list_getitem.
  set (j := if (i <? 0)%Z then (Z.of_nat (length l) + i)%Z else i).
  assert (0 ≤ j < Z.of_nat (length l))%Z as Hj.
  { unfold j. destruct (Z.ltb_spec i 0); lia. }
  replace ((0 <=? j) && (j <? Z.of_nat (length l)))%Z with true.
  - destruct (lookup_lt_is_Some_2 l (Z.to_nat j)) as [x ->]; [lia|eauto].
  - symmetry. apply andb_true_iff. split; [apply Z.leb_le|apply Z.ltb_lt]; lia.
Qed.

Section folder_loader.
Context `{Runtime}.

(** The image lookup sits before the [try]: a key without an image file
    is a [KeyError] that nothing catches. *)
Lemma getitem_image_missing self key output files :
  self_enable_image self = true →
  self_image_files self = Some files →
  files !! key = None →
  getitem_image self key output = ([], Raise (KeyError key)).
Proof.
  intros Hen Hfiles Hkey. unfold getitem_image. rewrite Hen, Hfiles.
  cbn [not_none]. rewrite eff_bind_lift_ok, (dict_getitem_missing _ _ Hkey).
  reflexivity.
Qed.

Lemma getitem_missing_image self ind key files :
  list_getitem (self_keys self) ind = Ok key →
  self_enable_image self = true →
  self_image_files self = Some files →
  files !! key = None →
  ImageDataset_getitem self ind = ([], Raise (KeyError key)).
Proof.
  intros Hind Hen Hfiles Hkey. unfold ImageDataset_getitem.
  rewrite Hind, eff_bind_lift_ok.
  by rewrite (getitem_image_missing _ _ _ _ Hen Hfiles Hkey).
Qed.

Lemma getitem_out_of_range self ind :
  list_getitem (self_keys self) ind = Raise IndexError →
  ImageDataset_getitem self ind = ([], Raise IndexError).
Proof. intros Hind. unfold ImageDataset_getitem. by rewrite Hind. Qed.

(** A failure of [Image.open] or of the transform with one of the two
    caught exceptions: the message is printed and [None] returned. *)
Lemma getitem_image_load_failure self key output files image_file transform e :
  self_enable_image self = true →
  self_image_files self = Some files →
  files !! key = Some image_file →
  self_image_transform self = Some transform →
  is_image_load_error e = true →
  (Image_open image_file = Raise e ∨
   ∃ image, Image_open image_file = Ok image ∧ transform image = Raise e) →
  ∃ t, getitem_image self key output =
         (t ++ [EvPrint (load_failure_message image_file e)], Ok None).
Proof.
  intros Hen Hfiles Hkey Htr He Hfail. unfold getitem_image.
  rewrite Hen, Hfiles. cbn [not_none]. rewrite eff_bind_lift_ok.
  unfold dict_getitem. rewrite Hkey, eff_bind_lift_ok, Htr.
  cbn [not_none]. rewrite eff_bind_lift_ok. unfold call.
  destruct Hfail as [Hopen|(image & Hopen & Htrans)]; rewrite Hopen.
  - exists [EvImageOpen (path_str image_file)].
    rewrite eff_bind_raise. unfold try_except. by rewrite He.
  - exists [EvImageOpen (path_str image_file); EvTransform].
    rewrite eff_bind_ok. cbn [fst snd]. rewrite Htrans.
    rewrite eff_bind_raise. cbn [fst snd app]. unfold try_except.
    by rewrite He.
Qed.

Lemma getitem_load_failure self ind key files image_file transform e :
  list_getitem (self_keys self) ind = Ok key →
  self_enable_image self = true →
  self_image_files self = Some files →
  files !! key = Some image_file →
  self_image_transform self = Some transform →
  is_image_load_error e = true →
  (Image_open image_file = Raise e ∨
   ∃ image, Image_open image_file = Ok image ∧ transform image = Raise e) →
  ∃ t, ImageDataset_getitem self ind =
         (t ++ [EvPrint (load_failure_message image_file e)], Ok None).
Proof.
  intros Hind Hen Hfiles Hkey Htr He Hfail.
  destruct (getitem_image_load_failure self key ∅ _ _ _ _ Hen Hfiles Hkey Htr He Hfail)
    as [t Ht].
  exists t. unfold ImageDataset_getitem.
  rewrite Hind, eff_bind_lift_ok, Ht, eff_bind_ok.
  unfold mret, eff_mret. cbn [fst snd]. by rewrite app_nil_r.
Qed.

End folder_loader.

(** ** Text and image enabled together *)

(** C2. A folder dataset built with text and image enabled and the
    identity sampler over a folder holding at least one [.txt] entry has
    a non-empty key list made of text-file keys only, each ending in
    [.txt]; none of them is a key of the restricted image map; so for
    every index into the key list [__getitem__] raises [KeyError] at the
    image lookup, before anything is opened or printed, and no call at
    all returns a record or the dropped sentinel. *)
Theorem getitem_text_and_image_raises_KeyError `{Runtime}
    (preprocess : Image → Res Tensor) (tokenizer : list string → Res (list Tokens))
    (folder : Folder) (em : bool) :
  (∃ rel, rel ∈ folder_entries folder ∧ endswith rel ".txt" = true) →
  ∃ keys self,
    ImageDataset_init preprocess tokenizer folder true true em default_input_sampler =
      ([EvSampler keys], Ok self) ∧
    self_keys self = keys ∧ keys ≠ [] ∧
    (∀ key, key ∈ keys → key ∈ folder_entries folder ∧ endswith key ".txt" = true) ∧
    (∃ image_files,
       self_image_files self = Some image_files ∧
       ∀ key, key ∈ keys → image_files !! key = None) ∧
    (∀ ind, (- Z.of_nat (length keys) ≤ ind < Z.of_nat (length keys))%Z →
       ∃ key, list_getitem keys ind = Ok key ∧
              ImageDataset_getitem self ind = ([], Raise (KeyError key))) ∧
    (∀ ind, ∃ e, ImageDataset_getitem self ind = ([], Raise e)).
Proof.
  intros (rel & Hrel & Htxt).
  destruct (ImageDataset_init_enabled preprocess tokenizer folder true true em
              default_input_sampler eq_refl)
    as (keys & _ & _ & Hmem & Hinit).
  specialize (Hmem _ eq_refl).
  set (self := built preprocess tokenizer folder true true em keys).
  assert (∀ key, key ∈ keys →
            filter (λ kv : string * Path, kv.1 ∈ (list_to_set keys : gset string))
              (image_files_of folder) !! key = None) as Hnone.
  { intros key Hkey%Hmem. apply map_lookup_filter_None. left.
    apply not_elem_of_dom. by apply text_key_not_image_key. }
  assert (∀ ind key, list_getitem keys ind = Ok key →
            ImageDataset_getitem self ind = ([], Raise (KeyError key))) as Hraise.
  { intros ind key Hind. eapply getitem_missing_image; [exact Hind|done|done|].
    apply Hnone. destruct (list_getitem_cases keys ind) as [(x & Hx & Hin)|Hx];
      congruence. }
  exists keys, self. split; [exact Hinit|]. split; [done|]. split.
  { intros ->. eapply elem_of_nil, Hmem, text_keys. eauto. }
  split. { intros key Hkey%Hmem. by apply text_keys. }
  split. { eexists. split; [reflexivity|exact Hnone]. }
  split.
  - intros ind Hind. destruct (list_getitem_in_range keys ind Hind) as [key Hkey].
    exists key. split; [done|]. by apply Hraise.
  - intros ind. destruct (list_getitem_cases keys ind) as [(key & Hkey & _)|Hx].
    + exists (KeyError key). by apply Hraise.
    + exists IndexError. by apply getitem_out_of_range.
Qed.

Lemma getitem_text_and_image_raises_KeyError_witness :
  ∃ keys self,
    @ImageDataset_init Demo.runtime Demo.preprocess Demo.tokenizer Demo.folder
      true true false default_input_sampler = ([EvSampler keys], Ok self) ∧
    self_keys self = keys ∧ keys ≠ [] ∧
    (∀ key, key ∈ keys →
       key ∈ folder_entries Demo.folder ∧ endswith key ".txt" = true) ∧
    (∃ image_files,
       self_image_files self = Some image_files ∧
       ∀ key, key ∈ keys → image_files !! key = None) ∧
    (∀ ind, (- Z.of_nat (length keys) ≤ ind < Z.of_nat (length keys))%Z →
       ∃ key, list_getitem keys ind = Ok key ∧
              ImageDataset_getitem self ind = ([], Raise (KeyError key))) ∧
    (∀ ind, ∃ e, ImageDataset_getitem self ind = ([], Raise e)).
Proof.
  apply (@getitem_text_and_image_raises_KeyError Demo.runtime Demo.preprocess
           Demo.tokenizer Demo.folder false).
  exists "a.txt". split; [|reflexivity]. right. left.
Defined.

Example getitem_text_and_image_demo :
  @ImageDataset_getitem Demo.runtime
    (built (H := Demo.runtime) Demo.preprocess Demo.tokenizer Demo.folder
       true true false ["a.txt"]) 0
  = ([], Raise (KeyError "a.txt")).
Proof. vm_compute; reflexivity. Qed.

(** ** A corrupt image *)



(** ** The archive loader *)

Lemma has_field_true (item : Item) key : has_field item key = true ↔ is_Some (item !! key).
Proof. unfold has_field. apply bool_decide_eq_true. Qed.

Lemma filter_dataset_true et ei em image_key caption_key (item : Item) :
  filter_dataset et ei em image_key caption_key item = true ↔
  (et = true → is_Some (item !! caption_key)) ∧
  (ei = true → is_Some (item !! image_key)) ∧
  (em = true → is_Some (item !! "json")).
Proof.
  unfold filter_dataset. rewrite <- !has_field_true.
  destruct et, ei, em, (has_field item caption_key), (has_field item image_key),
    (has_field item "json"); simpl; intuition congruence.
Qed.

Section archive_loader.
Context `{Runtime}.

Lemma create_webdataset_returns urls image_transform tokenizer et ei
    image_key caption_key em cache_path sampler :
  create_webdataset urls image_transform tokenizer et ei image_key caption_key
    em cache_path sampler =
  ([EvSampler urls],
   Ok {| td_source := {| wds_urls := sampler urls;
                         wds_cache_dir := cache_path;
                         wds_cache_size := 10 ^ 10 |};
         td_select := filter_dataset et ei em image_key caption_key;
         td_map := preprocess_dataset image_transform tokenizer et ei em
                     image_key caption_key |}).
Proof. reflexivity. Qed.

Lemma process_entry_refused ds item :
  td_select ds item = false → process_entry ds item = ([], []).
Proof. intros Hsel. unfold process_entry. by rewrite Hsel. Qed.

Lemma iterate_cons ds item rest :
  iterate ds (item :: rest) =
  ((process_entry ds item).1 ++ (iterate ds rest).1,
   (process_entry ds item).2 ++ (iterate ds rest).2).
Proof. simpl. by destruct (process_entry ds item), (iterate ds rest). Qed.

Lemma iterate_app ds pre post :
  iterate ds (pre ++ post) =
  ((iterate ds pre).1 ++ (iterate ds post).1,
   (iterate ds pre).2 ++ (iterate ds post).2).
Proof.
  induction pre as [|item pre IH].
  - simpl. by destruct (iterate ds post).
  - rewrite <- app_comm_cons, !iterate_cons, IH. simpl. by rewrite !app_assoc.
Qed.

(** Iterating over the stream is iterating over its admitted entries. *)
Lemma iterate_admitted ds stream :
  iterate ds stream = iterate ds (List.filter (td_select ds) stream).
Proof.
  induction stream as [|item rest IH]; [done|].
  simpl List.filter. destruct (td_select ds item) eqn:Hsel.
  - by rewrite !iterate_cons, IH.
  - rewrite iterate_cons, (process_entry_refused _ _ Hsel), <- IH. simpl.
    by destruct (iterate ds rest).
Qed.

(** The trace of an iteration is made of the traces of the mapped
    function on the admitted entries, in stream order. *)
Lemma iterate_trace ds stream :
  (iterate ds stream).1 =
  mjoin ((λ item, (process_entry ds item).1) <$> List.filter (td_select ds) stream).
Proof.
  induction stream as [|item rest IH]; [done|].
  rewrite iterate_cons. simpl List.filter. cbn [fst].
  destruct (td_select ds item) eqn:Hsel.
  - by rewrite fmap_cons, IH.
  - by rewrite (process_entry_refused _ _ Hsel), IH.
Qed.

(** A record that comes out of the iteration was mapped from an admitted
    entry of the stream. *)
Lemma iterate_yields ds stream sample :
  sample ∈ (iterate ds stream).2 →
  ∃ item t, item ∈ stream ∧ td_select ds item = true ∧
            td_map ds item = (t, Ok sample).
Proof.
  induction stream as [|item rest IH].
  - simpl. by intros ?%elem_of_nil.
  - rewrite iterate_cons. cbn [snd]. intros [Hin|Hin]%elem_of_app.
    + exists item. unfold process_entry in Hin.
      destruct (td_select ds item) eqn:Hsel; [|by apply elem_of_nil in Hin].
      destruct (td_map ds item) as [t [s|e]] eqn:Hmap; simpl in Hin.
      * apply list_elem_of_singleton in Hin as ->. exists t.
        split; [by left|done].
      * by apply elem_of_nil in Hin.
    + destruct (IH Hin) as (item' & t & ? & ? & ?).
      exists item', t. split; [by right|done].
Qed.

Lemma preprocess_dataset_disabled image_transform tokenizer image_key caption_key item :
  preprocess_dataset image_transform tokenizer false false false
    image_key caption_key item = ([], Ok ∅).
Proof. reflexivity. Qed.

Lemma iterate_disabled ds stream :
  (∀ item, td_select ds item = true) →
  (∀ item, td_map ds item = ([], Ok ∅)) →
  iterate ds stream = ([], replicate (length stream) ∅).
Proof.
  intros Hsel Hmap. induction stream as [|item rest IH]; [done|].
  rewrite iterate_cons, IH. unfold process_entry. by rewrite Hsel, Hmap.
Qed.

End archive_loader.

(** ** The archive filter *)

(** C6. The dataset that [create_webdataset] builds admits an entry
    exactly when the entry holds the caption field if text is enabled,
    the image field if image is enabled and the field [json] if metadata
    is enabled (a field of a disabled modality is not asked for). An
    entry it refuses goes through no decode or transform call and yields
    nothing: iterating a stream is iterating its admitted entries, and
    the trace of the iteration is the trace of the mapped function on the
    admitted entries alone. *)
Theorem archive_filter_by_enabled_fields `{Runtime}
    (urls : list string) (image_transform : Image → Res Tensor)
    (tokenizer : list string → Res (list Tokens)) (et ei : bool)
    (image_key caption_key : string) (em : bool) (cache_path : option string)
    (sampler : list string → list string) :
  ∃ dataset,
    create_webdataset urls image_transform tokenizer et ei image_key caption_key
      em cache_path sampler = ([EvSampler urls], Ok dataset) ∧
    (∀ item, td_select dataset item = true ↔
       (et = true → is_Some (item !! caption_key)) ∧
       (ei = true → is_Some (item !! image_key)) ∧
       (em = true → is_Some (item !! "json"))) ∧
    (∀ item, td_select dataset item = false →
       process_entry dataset item = ([], [])) ∧
    (∀ pre item post, td_select dataset item = false →
       iterate dataset (pre ++ item :: post) = iterate dataset (pre ++ post)) ∧
    (∀ stream,
       iterate dataset stream =
         iterate dataset (List.filter (td_select dataset) stream) ∧
       (iterate dataset stream).1 =
         mjoin ((λ item, (td_map dataset item).1 ++
                         match (td_map dataset item).2 with
                         | Ok _ => []
                         | Raise e => [EvWarn e]
                         end)
                <$> List.filter (td_select dataset) stream)).
Proof.
  eexists. split; [apply create_webdataset_returns|]. split; [|split; [|split]].
  - intros item. apply filter_dataset_true.
  - intros item. apply process_entry_refused.
  - intros pre item post Hsel.
    rewrite !iterate_app, iterate_cons, (process_entry_refused _ _ Hsel).
    reflexivity.
  - intros stream. split; [apply iterate_admitted|].
    rewrite iterate_trace. f_equal.
    apply Forall_fmap_ext, Forall_forall.
    intros item [_ Hsel]%list_elem_of_In%filter_In.
    unfold process_entry. rewrite Hsel.
    destruct (td_map _ item) as [t [s|e]]; simpl; by rewrite ?app_nil_r.
Qed.

Example archive_entry_without_caption :
  filter_dataset true true false "jpg" "txt" Demo.entry = true ∧
  filter_dataset true true false "jpg" "txt" Demo.entry_without_caption = false ∧
  filter_dataset false true false "jpg" "txt" Demo.entry_without_caption = true.
Proof. by vm_compute. Qed.

(** ** The cache budget *)

(** C9, as the code has it. Whatever the arguments, the dataset that
    [create_webdataset] builds has a cache size of [10 ^ 10] bytes; of the
    cache, only the directory is an argument. *)
Theorem cache_size_is_fixed `{Runtime}
    (urls : list string) (image_transform : Image → Res Tensor)
    (tokenizer : list string → Res (list Tokens)) (et ei : bool)
    (image_key caption_key : string) (em : bool) (cache_path : option string)
    (sampler : list string → list string) :
  ∃ dataset,
    create_webdataset urls image_transform tokenizer et ei image_key caption_key
      em cache_path sampler = ([EvSampler urls], Ok dataset) ∧
    wds_cache_size (td_source dataset) = 10000000000%Z ∧
    wds_cache_dir (td_source dataset) = cache_path ∧
    wds_urls (td_source dataset) = sampler urls.
Proof. eexists. split; [apply create_webdataset_returns|]. done. Qed.

(** Counterexample to C9 as stated: no choice of arguments gives a cache
    budget of zero bytes. *)
Lemma cache_budget_zero_unreachable :
  ¬ ∃ (R : Runtime) urls image_transform tokenizer et ei image_key caption_key
      em cache_path sampler t dataset,
      @create_webdataset R urls image_transform tokenizer et ei image_key
        caption_key em cache_path sampler = (t, Ok dataset) ∧
      wds_cache_size (td_source dataset) = 0%Z.
Proof.
  intros (R & urls & tr & tok & et & ei & ik & ck & em & cp & sampler & t & ds
          & Hcreate & Hsize).
  rewrite create_webdataset_returns in Hcreate. injection Hcreate as _ <-.
  discriminate Hsize.
Qed.

(** ** No modality enabled *)

(** C3, as the code has it. With no modality enabled, the folder mode
    raises at construction: [folder_to_keys] raises [TypeError] on sorting
    the unset key set, so [ImageDataset.__init__] and [FilesReader] raise
    it too, before the sampler is called. The archive mode makes no such
    check: [create_webdataset] returns a dataset that admits every entry
    and maps each one to the empty record. *)
Theorem no_modality_enabled `{Runtime}
    (preprocess : Image → Res Tensor) (tokenizer : list string → Res (list Tokens))
    (sampler : list string → list string) :
  (∀ folder batch_size workers,
     folder_to_keys folder false false false = Raise TypeError ∧
     ImageDataset_init preprocess tokenizer folder false false false sampler =
       ([], Raise TypeError) ∧
     FilesReader_init sampler preprocess tokenizer folder batch_size workers
       false false false = ([], Raise TypeError)) ∧
  (∀ urls image_key caption_key cache_path,
     ∃ dataset,
       create_webdataset urls preprocess tokenizer false false image_key
         caption_key false cache_path sampler = ([EvSampler urls], Ok dataset) ∧
       (∀ item, td_select dataset item = true ∧ td_map dataset item = ([], Ok ∅)) ∧
       ∀ stream, iterate dataset stream = ([], replicate (length stream) ∅)).
Proof.
  split.
  - intros folder batch_size workers. done.
  - intros urls image_key caption_key cache_path. eexists.
    split; [apply create_webdataset_returns|]. split; [done|].
    intros stream. by apply iterate_disabled.
Qed.

(** Counterexample to C3 as stated: an archive reader built with no
    modality enabled is constructed without error and yields a batch. *)
Lemma archive_without_modality_yields_batch :
  ∃ reader,
    @WebdatasetReader_init Demo.runtime default_input_sampler Demo.preprocess
      Demo.tokenizer ["shard-0.tar"] 2 0 false false false "jpg" "txt" None =
      ([EvSampler ["shard-0.tar"]], Ok reader) ∧
    WebdatasetReader_iter reader [Demo.entry; Demo.entry_without_caption] =
      ([], [∅], None).
Proof. eexists. split; [reflexivity|]. vm_compute. reflexivity. Qed.

(** ** The batch assembler *)

Lemma filter_not_none {A} (records : list (option A)) :
  List.filter is_not_none records = Some <$> survivors records.
Proof.
  induction records as [|[x|] records IH]; simpl; [done| |done].
  by rewrite IH.
Qed.

Lemma survivors_length {A} (records : list (option A)) :
  length (survivors records) = (length records - dropped records)%nat ∧
  (dropped records ≤ length records)%nat.
Proof.
  unfold dropped. induction records as [|[x|] records IH]; simpl; lia.
Qed.

Lemma survivors_sublist {A} (records : list (option A)) :
  sublist (Some <$> survivors records) records.
Proof.
  induction records as [|[x|] records IH]; simpl.
  - constructor.
  - by apply sublist_skip.
  - by apply sublist_cons.
Qed.

Section batch_assembler.
Context `{Runtime}.

Lemma column_cons (r : Sample) batch field :
  column (Some r :: batch) field =
  v ← dict_getitem r field; vs ← column batch field; mret (v :: vs).
Proof. reflexivity. Qed.

Lemma column_inv (kept : list Sample) field col :
  column (Some <$> kept) field = Ok col →
  Forall2 (λ r v, r !! field = Some v) kept col.
Proof.
  revert col. induction kept as [|r kept IH]; intros col.
  - intros [= <-]. constructor.
  - rewrite fmap_cons, column_cons.
    intros (v & Hv%dict_getitem_inv_ok & Hrest)%res_bind_inv_ok.
    apply res_bind_inv_ok in Hrest as (vs & Hvs & [= <-]).
    constructor; [done|]. by apply IH.
Qed.

Lemma column_total (kept : list Sample) field :
  (∀ r, r ∈ kept → is_Some (r !! field)) →
  ∃ col, column (Some <$> kept) field = Ok col.
Proof.
  induction kept as [|r kept IH]; intros Hall; [by eexists|].
  destruct (Hall r) as [v Hv]; [by left|].
  destruct IH as [vs Hvs]; [intros; apply Hall; by right|].
  exists (v :: vs). rewrite fmap_cons, column_cons, Hvs.
  unfold dict_getitem. by rewrite Hv.
Qed.

Lemma collate_columns_inv batch keys out field col :
  collate_columns batch keys = Ok out →
  out !! field = Some col →
  field ∈ keys ∧ column batch field = Ok col.
Proof.
  revert out. induction keys as [|key keys IH]; intros out; simpl.
  - intros [= <-]. by rewrite lookup_empty.
  - intros (c & Hc & Hrest)%res_bind_inv_ok.
    apply res_bind_inv_ok in Hrest as (out' & Hout' & [= <-]).
    destruct (decide (key = field)) as [->|Hne].
    + rewrite lookup_insert_eq. intros [= <-]. split; [by left|done].
    + rewrite lookup_insert_ne by done. intros Hf.
      destruct (IH _ Hout' Hf). split; [by right|done].
Qed.

Lemma collate_columns_total batch keys :
  (∀ key, key ∈ keys → ∃ col, column batch key = Ok col) →
  ∃ out, collate_columns batch keys = Ok out ∧
         ∀ field, is_Some (out !! field) ↔ field ∈ keys.
Proof.
  induction keys as [|key keys IH]; intros Hall; simpl.
  - exists ∅. split; [done|]. intros field. rewrite lookup_empty.
    split; [by intros [? ?]|by intros ?%elem_of_nil].
  - destruct (Hall key) as [col Hcol]; [by left|].
    destruct IH as (out & Hout & Hdom); [intros; apply Hall; by right|].
    exists (<[key := col]> out). rewrite Hcol, Hout. split; [done|].
    intros field. rewrite elem_of_cons, <- Hdom.
    destruct (decide (key = field)) as [->|Hne].
    + rewrite lookup_insert_eq. split; [by left|eauto].
    + rewrite lookup_insert_ne by done. split; [by right|]. by intros [?|?].
Qed.

End batch_assembler.

(** C5. From a batch of N records of which K are the dropped sentinel,
    the collate function of the files format keeps the N-K others, in
    their relative order; every field of the batch it returns holds
    exactly N-K entries, the i-th one being the value of that field in
    the i-th surviving record; and it does return a batch, with the
    fields of the records, whenever a record survives and the survivors
    have the same fields. *)
Theorem collate_fn_keeps_survivors `{Runtime} (records : list (option Sample)) :
  List.filter is_not_none records = Some <$> survivors records ∧
  sublist (Some <$> survivors records) records ∧
  length (survivors records) = length records - dropped records ∧
  (∀ out field col,
     collate_fn records = Ok out → out !! field = Some col →
     length col = length records - dropped records ∧
     Forall2 (λ r v, r !! field = Some v) (survivors records) col) ∧
  (∀ first,
     survivors records !! 0%nat = Some first →
     (∀ r, r ∈ survivors records → dom r = dom first) →
     ∃ out, collate_fn records = Ok out ∧
            ∀ field, is_Some (out !! field) ↔ is_Some (first !! field)).
Proof.
  split; [apply filter_not_none|]. split; [apply survivors_sublist|].
  split; [apply survivors_length|]. split.
  - intros out field col. unfold collate_fn. rewrite filter_not_none.
    destruct (survivors records) as [|first rest] eqn:Hkept; [done|].
    intros Hout Hcol. cbn [fmap list_fmap default_collate] in Hout.
    destruct (collate_columns_inv _ _ _ _ _ Hout Hcol) as [_ Hcolumn].
    apply (column_inv (first :: rest)) in Hcolumn.
    split; [|done].
    rewrite <- (proj1 (survivors_length records)), Hkept.
    symmetry. by eapply Forall2_length.
  - intros first Hfirst Hsame. unfold collate_fn. rewrite filter_not_none.
    destruct (survivors records) as [|first' rest] eqn:Hkept; [done|].
    injection Hfirst as ->. cbn [fmap list_fmap default_collate].
    destruct (collate_columns_total (Some <$> first :: rest) (elements (dom first)))
      as (out & Hout & Hdom).
    + intros key Hkey%elem_of_elements. apply (column_total (first :: rest)).
      intros r Hr. apply elem_of_dom. by rewrite (Hsame r Hr).
    + exists out. split; [done|]. intros field.
      by rewrite Hdom, elem_of_elements, elem_of_dom.
Qed.

Lemma collate_fn_keeps_survivors_witness :
  ∃ out,
    @collate_fn Demo.runtime
      [Some {[ "text" := VStr "a cat" ]}; None; Some {[ "text" := VStr "a dog" ]}]
    = Ok out ∧
    ∀ field, is_Some (out !! field) ↔
             is_Some (({[ "text" := VStr "a cat" ]} : gmap string (@Value Demo.runtime))
                        !! field).
Proof.
  destruct (@collate_fn_keeps_survivors Demo.runtime
              [Some {[ "text" := VStr "a cat" ]}; None; Some {[ "text" := VStr "a dog" ]}])
    as (_ & _ & _ & _ & Hreturns).
  apply Hreturns; [reflexivity|].
  intros r Hr. apply elem_of_cons in Hr as [->|Hr]; [reflexivity|].
  apply list_elem_of_singleton in Hr as ->. vm_compute; reflexivity.
Defined.

Example collate_fn_demo :
  @collate_fn Demo.runtime
    [Some {[ "text" := VStr "a cat" ]}; None; Some {[ "text" := VStr "a dog" ]}]
  = Ok {[ "text" := [VStr "a cat"; VStr "a dog"] ]}.
Proof. vm_compute; reflexivity. Qed.

(** ** Captions and token encodings *)

Section captions.
Context `{Runtime}.
Variable tokenizer : list string → Res (list Tokens).

Lemma tokenize_one_inv text t tokens :
  tokenize_one tokenizer text = (t, Ok tokens) →
  ∃ encoded, tokenizer [text] = Ok encoded ∧ encoded !! 0%nat = Some tokens.
Proof.
  unfold tokenize_one.
  intros (t1 & encoded & t2 & [Hcall _]%call_inv_ok & [Hfirst _]%lift_inv_ok & _)%eff_bind_inv_ok.
  exists encoded. split; [done|]. by apply list_getitem_first.
Qed.

Lemma getitem_text_inv self key output t out :
  self_enable_text self = true →
  self_tokenizer self = Some (tokenize_one tokenizer) →
  getitem_text self key output = (t, Ok out) →
  ∃ text_files text_file caption encoded tokens,
    self_text_files self = Some text_files ∧
    text_files !! key = Some text_file ∧
    read_text text_file = Ok caption ∧
    tokenizer [caption] = Ok encoded ∧ encoded !! 0%nat = Some tokens ∧
    out = <["text" := VStr caption]> (<["text_tokens" := VTokens tokens]> output).
Proof.
  intros Hen Htok. unfold getitem_text. rewrite Hen, Htok.
  intros (? & text_files & ? & [Hfiles%not_none_inv_ok _]%lift_inv_ok & Hrest & _)%eff_bind_inv_ok.
  apply eff_bind_inv_ok in Hrest
    as (? & text_file & ? & [Hfile%dict_getitem_inv_ok _]%lift_inv_ok & Hrest & _).
  apply eff_bind_inv_ok in Hrest
    as (? & caption & ? & [Hread _]%call_inv_ok & Hrest & _).
  apply eff_bind_inv_ok in Hrest as (? & tok & ? & [[= <-] _]%lift_inv_ok & Hrest & _).
  apply eff_bind_inv_ok in Hrest as (? & tokens & ? & Htokens & [= _ <-] & _).
  apply tokenize_one_inv in Htokens as (encoded & ? & ?).
  by exists text_files, text_file, caption, encoded, tokens.
Qed.

Lemma getitem_metadata_frame self key output t out field :
  field ≠ "metadata" →
  getitem_metadata self key output = (t, Ok out) →
  out !! field = output !! field.
Proof.
  intros Hne. unfold getitem_metadata. destruct (self_enable_metadata self).
  - intros (? & ? & ? & _ & Hrest & _)%eff_bind_inv_ok.
    apply eff_bind_inv_ok in Hrest as (? & ? & ? & _ & Hrest & _).
    apply eff_bind_inv_ok in Hrest as (? & ? & ? & _ & [= _ <-] & _).
    by rewrite lookup_insert_ne.
  - by intros [= _ <-].
Qed.

Lemma getitem_inv self ind t sample :
  ImageDataset_getitem self ind = (t, Ok (Some sample)) →
  ∃ key t1 out1 t2 out2 t3,
    list_getitem (self_keys self) ind = Ok key ∧
    getitem_image self key ∅ = (t1, Ok (Some out1)) ∧
    getitem_text self key out1 = (t2, Ok out2) ∧
    getitem_metadata self key out2 = (t3, Ok sample).
Proof.
  unfold ImageDataset_getitem.
  intros (? & key & ? & [Hkey _]%lift_inv_ok & Hrest & _)%eff_bind_inv_ok.
  apply eff_bind_inv_ok in Hrest as (t1 & [out1|] & ? & Himage & Hrest & _);
    [|discriminate Hrest].
  apply eff_bind_inv_ok in Hrest as (t2 & out2 & ? & Htext & Hrest & _).
  apply eff_bind_inv_ok in Hrest as (t3 & out3 & ? & Hmeta & [= _ <-] & _).
  by exists key, t1, out1, t2, out2, t3.
Qed.

Lemma preprocess_dataset_text_inv image_transform ei em image_key caption_key
    (item : Item) t sample :
  preprocess_dataset image_transform tokenizer true ei em image_key caption_key item
    = (t, Ok sample) →
  ∃ text caption encoded tokens,
    item !! caption_key = Some text ∧
    field_decode text = Ok caption ∧
    tokenizer [caption] = Ok encoded ∧ encoded !! 0%nat = Some tokens ∧
    sample !! "text" = Some (VStr caption) ∧
    sample !! "text_tokens" = Some (VTokens tokens).
Proof.
  unfold preprocess_dataset.
  intros (? & out1 & ? & _ & Hrest & _)%eff_bind_inv_ok.
  apply eff_bind_inv_ok in Hrest as (? & out2 & ? & Htext & Hrest & _).
  apply eff_bind_inv_ok in Hrest as (? & out3 & ? & Hmeta & [= _ <-] & _).
  apply eff_bind_inv_ok in Htext
    as (? & text & ? & [Hfield%dict_getitem_inv_ok _]%lift_inv_ok & Htext & _).
  apply eff_bind_inv_ok in Htext as (? & caption & ? & [Hdec _]%lift_inv_ok & Htext & _).
  apply eff_bind_inv_ok in Htext as (? & tokens & ? & Htokens & [= _ <-] & _).
  apply tokenize_one_inv in Htokens as (encoded & ? & ?).
  exists text, caption, encoded, tokens. do 4 (split; [done|]).
  destruct em.
  - apply eff_bind_inv_ok in Hmeta as (? & ? & ? & _ & Hmeta & _).
    apply eff_bind_inv_ok in Hmeta as (? & ? & ? & _ & [= _ <-] & _).
    split.
    + rewrite lookup_insert_ne by done. by rewrite lookup_insert_eq.
    + rewrite !lookup_insert_ne by done. by rewrite lookup_insert_eq.
  - injection Hmeta as _ <-. split.
    + by rewrite lookup_insert_eq.
    + rewrite lookup_insert_ne by done. by rewrite lookup_insert_eq.
Qed.

End captions.



(** X2. With text alone enabled, at an index whose key has a readable
    caption file, and with a tokenizer that returns at least one
    encoding, [__getitem__] reads the file, calls the tokenizer once and
    returns the record made of the caption and the first encoding. *)
Lemma getitem_text_only_returns `{Runtime}
    (preprocess : Image → Res Tensor) (tokenizer : list string → Res (list Tokens))
    (folder : Folder) (keys : list string) (ind : Z) (key : string)
    (text_files : gmap string Path) (text_file : Path) (caption : string)
    (tokens : Tokens) (others : list Tokens) :
  list_getitem keys ind = Ok key →
  self_text_files (built preprocess tokenizer folder true false false keys)
    = Some text_files →
  text_files !! key = Some text_file →
  read_text text_file = Ok caption →
  tokenizer [caption] = Ok (tokens :: others) →
  ImageDataset_getitem (built preprocess tokenizer folder true false false keys) ind =
    ([EvReadText (path_str text_file); EvTokenizer [caption]],
     Ok (Some (<["text" := VStr caption]> (<["text_tokens" := VTokens tokens]> ∅)))).
Proof.
  intros Hkey Hfiles Hfile Hread Htok.
  unfold ImageDataset_getitem. cbn [self_keys built]. rewrite Hkey, eff_bind_lift_ok.
  unfold getitem_image. cbn [self_enable_image built]. rewrite eff_bind_ret.
  unfold getitem_text. rewrite Hfiles. cbn [self_enable_text built not_none].
  rewrite eff_bind_lift_ok. unfold dict_getitem. rewrite Hfile, eff_bind_lift_ok.
  rewrite Hread, eff_bind_call_ok. cbn [self_tokenizer built not_none].
  rewrite eff_bind_lift_ok. unfold tokenize_one. rewrite Htok, eff_bind_call_ok.
  reflexivity.
Qed.

(** A batch whose records are all dropped: the default collate function
    is handed the empty list and raises. *)
Lemma collate_fn_all_dropped `{Runtime} (n : nat) :
  collate_fn (replicate n None) = Raise IndexError.
Proof.
  unfold collate_fn. rewrite filter_not_none.
  replace (survivors (replicate n (@None Sample))) with (@nil Sample); [done|].
  induction n as [|n IH]; [done|]. exact IH.
Qed.

(** A folder of four images, one of them corrupt, read with a batch size
    of four: one batch of the three other images, and no exception. *)
Example corrupt_image_in_folder_of_four :
  @FilesReader_init Demo.runtime default_input_sampler Demo.preprocess
    Demo.tokenizer Demo.four_images 4 0 false true false =
    ([EvSampler ["a.jpg"; "b.png"; "corrupt.jpg"; "d.webp"]],
     Ok Demo.four_images_reader) ∧
  (FilesReader_iter Demo.four_images_reader).1.2 = [Demo.four_images_batch] ∧
  (FilesReader_iter Demo.four_images_reader).2 = None.
Proof. repeat split; vm_compute; reflexivity. Qed.

Lemma archive_filter_by_enabled_fields_witness :
  ∃ dataset,
    @create_webdataset Demo.runtime ["shard-0.tar"] Demo.preprocess Demo.tokenizer
      true true "jpg" "txt" false None default_input_sampler =
      ([EvSampler ["shard-0.tar"]], Ok dataset) ∧
    td_select dataset Demo.entry = true ∧
    process_entry dataset Demo.entry_without_caption = ([], []).
Proof.
  destruct (@archive_filter_by_enabled_fields Demo.runtime ["shard-0.tar"]
              Demo.preprocess Demo.tokenizer true true "jpg" "txt" false None
              default_input_sampler)
    as (dataset & Hcreate & Hselect & Hrefused & _).
  exists dataset. split; [exact Hcreate|]. split.
  - apply Hselect. split; [|split]; [| |discriminate]; intros _; vm_compute; eauto.
  - apply Hrefused. destruct (td_select dataset Demo.entry_without_caption) eqn:Hsel;
      [|reflexivity].
    apply Hselect in Hsel as [Hcaption _].
    destruct (Hcaption eq_refl) as [text Htext]. vm_compute in Htext. discriminate Htext.
Defined.

Lemma getitem_text_only_returns_witness :
  @ImageDataset_getitem Demo.runtime
    (built (H := Demo.runtime) Demo.preprocess Demo.tokenizer Demo.captions_only
       true false false ["a.txt"; "sub/b.txt"]) 1 =
    ([EvReadText "data/sub/b.txt"; EvTokenizer ["content of sub/b.txt"]],
     Ok (Some Demo.caption_record)).
Proof.
  apply (@getitem_text_only_returns Demo.runtime Demo.preprocess Demo.tokenizer
           Demo.captions_only ["a.txt"; "sub/b.txt"] 1 "sub/b.txt"
           (filter (λ kv : string * Path,
                      kv.1 ∈ (list_to_set ["a.txt"; "sub/b.txt"] : gset string))
              (text_files_of Demo.captions_only))
           {| path_root := "data"; path_rel := "sub/b.txt" |}
           "content of sub/b.txt" 20 []).
  - reflexivity.
  - reflexivity.
  - vm_compute; reflexivity.
  - reflexivity.
  - reflexivity.
Defined.

(** * Further properties of the reader *)

(** ** More on the effect monad *)

Lemma eff_bind_ext {A B} (f g : A → Eff B) (m : Eff A) :
  (∀ a, f a = g a) → m ≫= f = m ≫= g.
Proof.
  intros Hfg. destruct m as [t [a|e]]; [|done].
  by rewrite !eff_bind_ok, Hfg.
Qed.

Lemma eff_bind_inv_raise {A B} (m : Eff A) (f : A → Eff B) t e :
  m ≫= f = (t, Raise e) →
  m = (t, Raise e) ∨
  ∃ t1 a t2, m = (t1, Ok a) ∧ f a = (t2, Raise e) ∧ t = t1 ++ t2.
Proof.
  destruct m as [t1 [a|e1]].
  - rewrite eff_bind_ok. destruct (f a) as [t2 r] eqn:Hf; simpl.
    intros [= <- ->]. right. by exists t1, a, t2.
  - rewrite eff_bind_raise. intros [= <- <-]. by left.
Qed.

Lemma try_except_inv_ok {A} (body : Eff A) caught handler t a :
  try_except body caught handler = (t, Ok a) →
  body = (t, Ok a) ∨
  ∃ tb e th, body = (tb, Raise e) ∧ caught e = true ∧
             handler e = (th, Ok a) ∧ t = tb ++ th.
Proof.
  unfold try_except. destruct body as [tb [x|e]]; [by left|].
  destruct (caught e) eqn:Hc; [|discriminate].
  destruct (handler e) as [th r] eqn:Hh. intros [= <- ->].
  right. by exists tb, e, th.
Qed.

(** ** The three key spaces *)

Lemma metadata_keys folder k :
  k ∈ dom (metadata_files_of folder) ↔
  k ∈ folder_entries folder ∧ endswith k ".json" = true.
Proof.
  unfold metadata_files_of. rewrite glob_single, globbed_keys. split.
  - intros (? & ext & ->%list_elem_of_singleton & ?). done.
  - intros [? ?]. split; [done|]. exists "json". split; [by left|done].
Qed.

Lemma text_key_not_metadata_key folder k :
  k ∈ dom (text_files_of folder) → k ∉ dom (metadata_files_of folder).
Proof.
  intros [_ Htxt]%text_keys [_ Hjson]%metadata_keys.
  destruct (endswith_comparable _ _ _ Htxt Hjson) as [H|H]; by vm_compute in H.
Qed.

Lemma image_key_not_metadata_key folder k :
  k ∈ dom (image_files_of folder) → k ∉ dom (metadata_files_of folder).
Proof.
  intros (_ & ext & Hext & Himg)%image_keys [_ Hjson]%metadata_keys.
  destruct (endswith_comparable _ _ _ Hjson Himg) as [H|H];
    unfold image_extensions in Hext;
    repeat (apply elem_of_cons in Hext as [->|Hext]; [by vm_compute in H|]);
    by apply elem_of_nil in Hext.
Qed.

Lemma restricted_lookup_Some (files : gmap string Path) (keys : list string) k p :
  filter (λ kv : string * Path, kv.1 ∈ (list_to_set keys : gset string)) files !! k
    = Some p ↔
  files !! k = Some p ∧ k ∈ keys.
Proof. rewrite map_lookup_filter_Some. simpl. by rewrite elem_of_list_to_set. Qed.

Lemma restricted_lookup_sampled (files : gmap string Path) (keys : list string) k :
  k ∈ keys →
  filter (λ kv : string * Path, kv.1 ∈ (list_to_set keys : gset string)) files !! k
    = files !! k.
Proof.
  intros Hk. destruct (files !! k) as [p|] eqn:Hp.
  - by apply restricted_lookup_Some.
  - apply map_lookup_filter_None. by left.
Qed.

(** ** The blocks of [__getitem__], inverted *)

Section getitem_blocks.
Context `{Runtime}.

Lemma getitem_image_inv self key output t out :
  getitem_image self key output = (t, Ok (Some out)) →
  (self_enable_image self = false ∧ out = output ∧ t = []) ∨
  (self_enable_image self = true ∧
   ∃ files image_file transform image tensor,
     self_image_files self = Some files ∧
     files !! key = Some image_file ∧
     self_image_transform self = Some transform ∧
     Image_open image_file = Ok image ∧
     transform image = Ok tensor ∧
     out = <["image_tensor" := VTensor tensor]>
             (<["image_filename" := VStr (path_str image_file)]> output) ∧
     t = [EvImageOpen (path_str image_file); EvTransform]).
Proof.
  unfold getitem_image. destruct (self_enable_image self); [|intros [= <- <-]; by left].
  intros (? & files & ? & [Hfiles%not_none_inv_ok ->]%lift_inv_ok & Hrest & ->)%eff_bind_inv_ok.
  apply eff_bind_inv_ok in Hrest
    as (? & image_file & ? & [Hfile%dict_getitem_inv_ok ->]%lift_inv_ok & Hrest & ->).
  apply eff_bind_inv_ok in Hrest as (t1 & [tensor|] & t2 & Htry & Hout & ->);
    [|discriminate Hout].
  injection Hout as <- <-.
  apply try_except_inv_ok in Htry as [Hbody|(tb & e & th & _ & _ & Hh & _)];
    [|discriminate Hh].
  apply eff_bind_inv_ok in Hbody
    as (? & transform & ? & [Htr%not_none_inv_ok ->]%lift_inv_ok & Hbody & ->).
  apply eff_bind_inv_ok in Hbody
    as (? & image & ? & [Hopen ->]%call_inv_ok & Hbody & ->).
  apply eff_bind_inv_ok in Hbody
    as (? & tensor' & ? & [Htrans ->]%call_inv_ok & [= <- <-] & ->).
  right. split; [done|]. eexists files, image_file, transform, image, _.
  repeat split; eauto.
Qed.

Lemma getitem_text_lookup self key output t out :
  self_enable_text self = true →
  getitem_text self key output = (t, Ok out) →
  ∃ files text_file, self_text_files self = Some files ∧
                     files !! key = Some text_file.
Proof.
  intros Hen. unfold getitem_text. rewrite Hen.
  intros (? & files & ? & [Hfiles%not_none_inv_ok _]%lift_inv_ok & Hrest & _)%eff_bind_inv_ok.
  apply eff_bind_inv_ok in Hrest
    as (? & text_file & ? & [Hfile%dict_getitem_inv_ok _]%lift_inv_ok & _).
  by exists files, text_file.
Qed.

Lemma getitem_metadata_lookup self key output t out :
  self_enable_metadata self = true →
  getitem_metadata self key output = (t, Ok out) →
  ∃ files metadata_file, self_metadata_files self = Some files ∧
                         files !! key = Some metadata_file.
Proof.
  intros Hen. unfold getitem_metadata. rewrite Hen.
  intros (? & files & ? & [Hfiles%not_none_inv_ok _]%lift_inv_ok & Hrest & _)%eff_bind_inv_ok.
  apply eff_bind_inv_ok in Hrest
    as (? & metadata_file & ? & [Hfile%dict_getitem_inv_ok _]%lift_inv_ok & _).
  by exists files, metadata_file.
Qed.

End getitem_blocks.

(** ** Two modalities at once *)

Section two_modalities.
Context `{Runtime}.
Variable preprocess : Image → Res Tensor.
Variable tokenizer : list string → Res (list Tokens).

Lemma built_image_key folder et em keys key output t out :
  getitem_image (built preprocess tokenizer folder et true em keys) key output
    = (t, Ok (Some out)) →
  key ∈ dom (image_files_of folder).
Proof.
  intros [[Hoff _]|(_ & files & f & ? & ? & ? & [= <-] & Hfile & _)]%getitem_image_inv;
    [discriminate Hoff|].
  apply restricted_lookup_Some in Hfile as [Hfile _]. apply elem_of_dom. eauto.
Qed.

Lemma built_text_key folder ei em keys key output t out :
  getitem_text (built preprocess tokenizer folder true ei em keys) key output
    = (t, Ok out) →
  key ∈ dom (text_files_of folder).
Proof.
  intros (files & f & [= <-] & Hfile)%getitem_text_lookup; [|done].
  apply restricted_lookup_Some in Hfile as [Hfile _]. apply elem_of_dom. eauto.
Qed.

Lemma built_metadata_key folder et ei keys key output t out :
  getitem_metadata (built preprocess tokenizer folder et ei true keys) key output
    = (t, Ok out) →
  key ∈ dom (metadata_files_of folder).
Proof.
  intros (files & f & [= <-] & Hfile)%getitem_metadata_lookup; [|done].
  apply restricted_lookup_Some in Hfile as [Hfile _]. apply elem_of_dom. eauto.
Qed.

End two_modalities.

(** X3. A folder dataset built with two or three modalities enabled,
    whatever the sampler, never returns a record: a key is the path of
    one file, extension included, so no key has a file in two of the
    three file maps, and [__getitem__] raises (or returns [None] for an
    image that fails to load) at every index. *)
Theorem two_modalities_never_return_a_record `{Runtime}
    (preprocess : Image → Res Tensor) (tokenizer : list string → Res (list Tokens))
    (folder : Folder) (et ei em : bool) (sampler : list string → list string)
    (t0 : list Event) (self : ImageDataset) (ind : Z)
    (t : list Event) (sample : Sample) :
  (et && ei) || (et && em) || (ei && em) = true →
  ImageDataset_init preprocess tokenizer folder et ei em sampler = (t0, Ok self) →
  ImageDataset_getitem self ind ≠ (t, Ok (Some sample)).
Proof.
  intros Htwo Hinit Hget.
  destruct (ImageDataset_init_enabled preprocess tokenizer folder et ei em sampler)
    as (keys & _ & _ & _ & Hinit'); [by destruct et, ei, em|].
  rewrite Hinit' in Hinit. injection Hinit as _ <-.
  apply getitem_inv in Hget
    as (key & t1 & out1 & t2 & out2 & t3 & _ & Himage & Htext & Hmeta).
  destruct et, ei, em; try discriminate Htwo.
  - apply built_text_key in Htext. apply built_image_key in Himage.
    by eapply text_key_not_image_key.
  - apply built_text_key in Htext. apply built_image_key in Himage.
    by eapply text_key_not_image_key.
  - apply built_text_key in Htext. apply built_metadata_key in Hmeta.
    by eapply text_key_not_metadata_key.
  - apply built_image_key in Himage. apply built_metadata_key in Hmeta.
    by eapply image_key_not_metadata_key.
Qed.

Lemma two_modalities_never_return_a_record_witness :
  @ImageDataset_getitem Demo.runtime
    (built (H := Demo.runtime) Demo.preprocess Demo.tokenizer Demo.folder
       false true true ["a.jpg"; "b.jpg"]) 0
  ≠ ([EvImageOpen "data/a.jpg"; EvTransform], Ok (Some ∅)).
Proof.
  apply (@two_modalities_never_return_a_record Demo.runtime Demo.preprocess
           Demo.tokenizer Demo.folder false true true default_input_sampler
           [EvSampler ["a.jpg"; "b.jpg"]]).
  - reflexivity.
  - vm_compute; reflexivity.
Defined.

(** ** Keys and their files *)

Lemma text_files_lookup folder k :
  k ∈ dom (text_files_of folder) →
  text_files_of folder !! k =
    Some {| path_root := folder_root folder; path_rel := k |}.
Proof.
  intros [p Hp]%elem_of_dom. rewrite Hp. f_equal.
  unfold text_files_of in Hp. rewrite glob_single in Hp.
  by apply globbed_lookup in Hp.
Qed.

Lemma image_files_lookup folder k :
  k ∈ dom (image_files_of folder) →
  image_files_of folder !! k =
    Some {| path_root := folder_root folder; path_rel := k |}.
Proof.
  intros [p Hp]%elem_of_dom. rewrite Hp. f_equal. by apply globbed_lookup in Hp.
Qed.

Lemma metadata_files_lookup folder k :
  k ∈ dom (metadata_files_of folder) →
  metadata_files_of folder !! k =
    Some {| path_root := folder_root folder; path_rel := k |}.
Proof.
  intros [p Hp]%elem_of_dom. rewrite Hp. f_equal.
  unfold metadata_files_of in Hp. rewrite glob_single in Hp.
  by apply globbed_lookup in Hp.
Qed.

(** X4. In a folder dataset built with the identity sampler, every index
    into the key list has its file in the map of the anchor modality
    (text if enabled, else image, else metadata), and that file is the
    folder entry the key names: for the anchor modality the lookup of
    [__getitem__] cannot raise [KeyError]. *)
Theorem anchor_keys_have_files `{Runtime}
    (preprocess : Image → Res Tensor) (tokenizer : list string → Res (list Tokens))
    (folder : Folder) (et ei em : bool)
    (t0 : list Event) (self : ImageDataset) (ind : Z) :
  ImageDataset_init preprocess tokenizer folder et ei em default_input_sampler
    = (t0, Ok self) →
  (- Z.of_nat (ImageDataset_len self) ≤ ind < Z.of_nat (ImageDataset_len self))%Z →
  ∃ key files,
    list_getitem (self_keys self) ind = Ok key ∧
    key ∈ folder_entries folder ∧
    (if et then self_text_files self
     else if ei then self_image_files self
     else self_metadata_files self) = Some files ∧
    files !! key = Some {| path_root := folder_root folder; path_rel := key |}.
Proof.
  intros Hinit Hind.
  destruct (et || ei || em) eqn:Hen.
  2:{ destruct et, ei, em; try discriminate Hen. discriminate Hinit. }
  destruct (ImageDataset_init_enabled preprocess tokenizer folder et ei em
              default_input_sampler Hen) as (keys & _ & _ & Hmem & Hinit').
  rewrite Hinit' in Hinit. injection Hinit as _ <-.
  unfold ImageDataset_len in Hind. cbn [self_keys built] in *.
  unfold default_input_sampler in *.
  destruct (list_getitem_in_range keys ind Hind) as [key Hkey].
  assert (key ∈ keys) as Hin.
  { destruct (list_getitem_cases keys ind) as [(x & Hx & ?)|Hx]; congruence. }
  exists key. destruct et; [|destruct ei; [|destruct em; [|discriminate Hen]]];
    cbn [anchor_keys] in Hmem; specialize (Hmem _ eq_refl key);
    apply Hmem in Hin as Hdom; eexists; (split; [exact Hkey|]).
  - split; [by apply text_keys in Hdom as [? _]|]. split; [reflexivity|].
    rewrite restricted_lookup_sampled by done. by apply text_files_lookup.
  - split; [by apply image_keys in Hdom as [? _]|]. split; [reflexivity|].
    rewrite restricted_lookup_sampled by done. by apply image_files_lookup.
  - split; [by apply metadata_keys in Hdom as [? _]|]. split; [reflexivity|].
    rewrite restricted_lookup_sampled by done. by apply metadata_files_lookup.
Qed.

Lemma anchor_keys_have_files_witness :
  ∃ key files,
    list_getitem ["corrupt.jpg"; "ok.png"] (-1) = Ok key ∧
    key ∈ folder_entries Demo.images_only ∧
    self_image_files
      (built (H := Demo.runtime) Demo.preprocess Demo.tokenizer Demo.images_only
         false true false ["corrupt.jpg"; "ok.png"]) = Some files ∧
    files !! key = Some {| path_root := "data"; path_rel := key |}.
Proof.
  apply (@anchor_keys_have_files Demo.runtime Demo.preprocess Demo.tokenizer
           Demo.images_only false true false [EvSampler ["corrupt.jpg"; "ok.png"]]
           (built (H := Demo.runtime) Demo.preprocess Demo.tokenizer Demo.images_only
              false true false ["corrupt.jpg"; "ok.png"]) (-1)).
  - vm_compute; reflexivity.
  - vm_compute. split; [discriminate|reflexivity].
Defined.

(** ** Images that load, and images that fail otherwise *)



Section uncaught.
Context `{Runtime}.

Lemma getitem_image_uncaught self key output files image_file transform e :
  self_enable_image self = true →
  self_image_files self = Some files →
  files !! key = Some image_file →
  self_image_transform self = Some transform →
  is_image_load_error e = false →
  (Image_open image_file = Raise e ∨
   ∃ image, Image_open image_file = Ok image ∧ transform image = Raise e) →
  ∃ t, getitem_image self key output = (t, Raise e) ∧
       (t = [EvImageOpen (path_str image_file)] ∨
        t = [EvImageOpen (path_str image_file); EvTransform]).
Proof.
  intros Hen Hfiles Hkey Htr He Hfail. unfold getitem_image.
  rewrite Hen, Hfiles. cbn [not_none]. rewrite eff_bind_lift_ok.
  unfold dict_getitem. rewrite Hkey, eff_bind_lift_ok, Htr.
  cbn [not_none]. rewrite eff_bind_lift_ok. unfold call.
  destruct Hfail as [Hopen|(image & Hopen & Htrans)]; rewrite Hopen.
  - exists [EvImageOpen (path_str image_file)].
    rewrite eff_bind_raise. unfold try_except. rewrite He. auto.
  - exists [EvImageOpen (path_str image_file); EvTransform].
    rewrite eff_bind_ok. cbn [fst snd]. rewrite Htrans.
    rewrite eff_bind_raise. cbn [fst snd app]. unfold try_except.
    rewrite He. auto.
Qed.

End uncaught.

(** X6. Only [UnidentifiedImageError] and [OSError] are contained: in a
    folder dataset built with image enabled, any other exception raised
    by [Image.open] or by the transform at a key that has an image file
    leaves [__getitem__] as it is, and nothing is printed. *)
Theorem other_image_error_propagates `{Runtime}
    (preprocess : Image → Res Tensor) (tokenizer : list string → Res (list Tokens))
    (folder : Folder) (et em : bool) (sampler : list string → list string)
    (t0 : list Event) (self : ImageDataset) (ind : Z) (key : string)
    (image_files : gmap string Path) (image_file : Path) (e : Exn) :
  ImageDataset_init preprocess tokenizer folder et true em sampler = (t0, Ok self) →
  list_getitem (self_keys self) ind = Ok key →
  self_image_files self = Some image_files →
  image_files !! key = Some image_file →
  is_image_load_error e = false →
  (Image_open image_file = Raise e ∨
   ∃ image, Image_open image_file = Ok image ∧ preprocess image = Raise e) →
  ∃ t, ImageDataset_getitem self ind = (t, Raise e) ∧
       ∀ line, EvPrint line ∉ t.
Proof.
  intros Hinit Hind Hfiles Hkey He Hfail.
  destruct (ImageDataset_init_enabled preprocess tokenizer folder et true em sampler)
    as (keys & _ & _ & _ & Hinit'); [by destruct et|].
  rewrite Hinit' in Hinit. injection Hinit as <- <-.
  destruct (getitem_image_uncaught
              (built preprocess tokenizer folder et true em (sampler keys))
              key ∅ image_files image_file preprocess e)
    as (t & Ht & Hshape); [done..|].
  exists t. split.
  - unfold ImageDataset_getitem. by rewrite Hind, eff_bind_lift_ok, Ht.
  - intros line Hin.
    destruct Hshape as [-> | ->];
      repeat (apply elem_of_cons in Hin as [Hin|Hin]; [discriminate Hin|]);
      by apply elem_of_nil in Hin.
Qed.

Lemma other_image_error_propagates_witness :
  ∃ t, @ImageDataset_getitem Demo.runtime
         (built (H := Demo.runtime) Demo.picky_preprocess Demo.tokenizer Demo.folder
            false true false ["a.jpg"; "b.jpg"]) 1 =
       (t, Raise (OtherError "image too large")) ∧
       ∀ line, EvPrint line ∉ t.
Proof.
  apply (@other_image_error_propagates Demo.runtime Demo.picky_preprocess
           Demo.tokenizer Demo.folder false false default_input_sampler
           [EvSampler ["a.jpg"; "b.jpg"]]
           (built (H := Demo.runtime) Demo.picky_preprocess Demo.tokenizer Demo.folder
              false true false ["a.jpg"; "b.jpg"])
           1 "b.jpg"
           (filter (λ kv : string * Path,
                      kv.1 ∈ (list_to_set ["a.jpg"; "b.jpg"] : gset string))
              (image_files_of Demo.folder))
           {| path_root := "data"; path_rel := "b.jpg" |}
           (OtherError "image too large")).
  - vm_compute; reflexivity.
  - reflexivity.
  - reflexivity.
  - vm_compute; reflexivity.
  - reflexivity.
  - right. exists "data/b.jpg". split; reflexivity.
Defined.

(** ** What construction keeps *)

(** X7. After construction, each file map of an enabled modality holds
    exactly the files of that modality whose key the sampler returned,
    unchanged, and the map of a disabled modality is not set; a key that
    the sampler returns without a file of the modality has no entry. *)
Theorem file_maps_restricted_to_sampled_keys `{Runtime}
    (preprocess : Image → Res Tensor) (tokenizer : list string → Res (list Tokens))
    (folder : Folder) (et ei em : bool) (sampler : list string → list string)
    (t0 : list Event) (self : ImageDataset) :
  ImageDataset_init preprocess tokenizer folder et ei em sampler = (t0, Ok self) →
  (is_Some (self_text_files self) ↔ et = true) ∧
  (is_Some (self_image_files self) ↔ ei = true) ∧
  (is_Some (self_metadata_files self) ↔ em = true) ∧
  (∀ files, self_text_files self = Some files →
     ∀ k p, files !! k = Some p ↔
            text_files_of folder !! k = Some p ∧ k ∈ self_keys self) ∧
  (∀ files, self_image_files self = Some files →
     ∀ k p, files !! k = Some p ↔
            image_files_of folder !! k = Some p ∧ k ∈ self_keys self) ∧
  (∀ files, self_metadata_files self = Some files →
     ∀ k p, files !! k = Some p ↔
            metadata_files_of folder !! k = Some p ∧ k ∈ self_keys self).
Proof.
  intros Hinit.
  destruct (et || ei || em) eqn:Hen.
  2:{ destruct et, ei, em; try discriminate Hen. discriminate Hinit. }
  destruct (ImageDataset_init_enabled preprocess tokenizer folder et ei em
              sampler Hen) as (keys & _ & _ & _ & Hinit').
  rewrite Hinit' in Hinit. injection Hinit as _ <-.
  cbn [self_keys self_text_files self_image_files self_metadata_files built].
  split; [|split; [|split; [|split; [|split]]]].
  - destruct et; [done|]. split; [by intros [? ?]|done].
  - destruct ei; [done|]. split; [by intros [? ?]|done].
  - destruct em; [done|]. split; [by intros [? ?]|done].
  - destruct et; [|done]. intros files [= <-] k p. apply restricted_lookup_Some.
  - destruct ei; [|done]. intros files [= <-] k p. apply restricted_lookup_Some.
  - destruct em; [|done]. intros files [= <-] k p. apply restricted_lookup_Some.
Qed.

Lemma file_maps_restricted_to_sampled_keys_witness :
  ∃ files,
    self_image_files
      (built (H := Demo.runtime) Demo.preprocess Demo.tokenizer Demo.folder
         false true false ["b.jpg"; "missing.jpg"]) = Some files ∧
    files !! "b.jpg" = Some {| path_root := "data"; path_rel := "b.jpg" |} ∧
    files !! "a.jpg" = None ∧
    files !! "missing.jpg" = None.
Proof.
  destruct (@file_maps_restricted_to_sampled_keys Demo.runtime Demo.preprocess
              Demo.tokenizer Demo.folder false true false
              (λ _, ["b.jpg"; "missing.jpg"]) [EvSampler ["a.jpg"; "b.jpg"]]
              (built (H := Demo.runtime) Demo.preprocess Demo.tokenizer Demo.folder
                 false true false ["b.jpg"; "missing.jpg"]))
    as (_ & _ & _ & _ & Himage & _); [vm_compute; reflexivity|].
  eexists. split; [reflexivity|].
  specialize (Himage _ eq_refl). split; [|split].
  - apply Himage. split; [vm_compute; reflexivity|]. by left.
  - apply eq_None_not_Some. intros [p [_ Hin]%Himage].
    apply elem_of_cons in Hin as [Hin|Hin]; [discriminate Hin|].
    apply list_elem_of_singleton in Hin. discriminate Hin.
  - apply eq_None_not_Some. intros [p [Hfile _]%Himage].
    vm_compute in Hfile. discriminate Hfile.
Defined.

(** ** Sampling and records *)

Section same_key.
Context `{Runtime}.
Variable preprocess : Image → Res Tensor.
Variable tokenizer : list string → Res (list Tokens).
Variable folder : Folder.
Variables et ei em : bool.

Lemma getitem_image_same_key keys1 keys2 key output :
  key ∈ keys1 → key ∈ keys2 →
  getitem_image (built preprocess tokenizer folder et ei em keys1) key output =
  getitem_image (built preprocess tokenizer folder et ei em keys2) key output.
Proof.
  intros H1 H2. unfold getitem_image.
  cbn [self_enable_image self_image_files self_image_transform built].
  destruct ei; [|done]. cbn [not_none]. rewrite !eff_bind_lift_ok.
  unfold dict_getitem. by rewrite !restricted_lookup_sampled.
Qed.

Lemma getitem_text_same_key keys1 keys2 key output :
  key ∈ keys1 → key ∈ keys2 →
  getitem_text (built preprocess tokenizer folder et ei em keys1) key output =
  getitem_text (built preprocess tokenizer folder et ei em keys2) key output.
Proof.
  intros H1 H2. unfold getitem_text.
  cbn [self_enable_text self_text_files self_tokenizer built].
  destruct et; [|done]. cbn [not_none]. rewrite !eff_bind_lift_ok.
  unfold dict_getitem. by rewrite !restricted_lookup_sampled.
Qed.

Lemma getitem_metadata_same_key keys1 keys2 key output :
  key ∈ keys1 → key ∈ keys2 →
  getitem_metadata (built preprocess tokenizer folder et ei em keys1) key output =
  getitem_metadata (built preprocess tokenizer folder et ei em keys2) key output.
Proof.
  intros H1 H2. unfold getitem_metadata.
  cbn [self_enable_metadata self_metadata_files built].
  destruct em; [|done]. cbn [not_none]. rewrite !eff_bind_lift_ok.
  unfold dict_getitem. by rewrite !restricted_lookup_sampled.
Qed.

Lemma getitem_same_key keys1 keys2 i j key :
  list_getitem keys1 i = Ok key →
  list_getitem keys2 j = Ok key →
  ImageDataset_getitem (built preprocess tokenizer folder et ei em keys1) i =
  ImageDataset_getitem (built preprocess tokenizer folder et ei em keys2) j.
Proof.
  intros Hi Hj.
  assert (key ∈ keys1) as H1.
  { destruct (list_getitem_cases keys1 i) as [(x & Hx & ?)|Hx]; congruence. }
  assert (key ∈ keys2) as H2.
  { destruct (list_getitem_cases keys2 j) as [(x & Hx & ?)|Hx]; congruence. }
  unfold ImageDataset_getitem. cbn [self_keys built].
  rewrite Hi, Hj, !eff_bind_lift_ok.
  rewrite (getitem_image_same_key keys1 keys2) by done.
  apply eff_bind_ext. intros [output|]; [|done].
  rewrite (getitem_text_same_key keys1 keys2) by done.
  apply eff_bind_ext. intros output'.
  by rewrite (getitem_metadata_same_key keys1 keys2).
Qed.

End same_key.

(** X8. What [__getitem__] does for a key does not depend on the
    sampler: two datasets built over the same folder with the same flags
    and functions, under any two samplers, give the same trace and the
    same result at any two indices that hold the same key. *)
Theorem record_depends_only_on_key `{Runtime}
    (preprocess : Image → Res Tensor) (tokenizer : list string → Res (list Tokens))
    (folder : Folder) (et ei em : bool)
    (sampler1 sampler2 : list string → list string)
    (t1 t2 : list Event) (self1 self2 : ImageDataset) (i j : Z) (key : string) :
  ImageDataset_init preprocess tokenizer folder et ei em sampler1 = (t1, Ok self1) →
  ImageDataset_init preprocess tokenizer folder et ei em sampler2 = (t2, Ok self2) →
  list_getitem (self_keys self1) i = Ok key →
  list_getitem (self_keys self2) j = Ok key →
  ImageDataset_getitem self1 i = ImageDataset_getitem self2 j.
Proof.
  intros Hinit1 Hinit2 Hi Hj.
  destruct (et || ei || em) eqn:Hen.
  2:{ destruct et, ei, em; try discriminate Hen. discriminate Hinit1. }
  destruct (ImageDataset_init_enabled preprocess tokenizer folder et ei em
              sampler1 Hen) as (keys1 & _ & _ & _ & Hinit1').
  destruct (ImageDataset_init_enabled preprocess tokenizer folder et ei em
              sampler2 Hen) as (keys2 & _ & _ & _ & Hinit2').
  rewrite Hinit1' in Hinit1. injection Hinit1 as _ <-.
  rewrite Hinit2' in Hinit2. injection Hinit2 as _ <-.
  by eapply getitem_same_key.
Qed.

Lemma record_depends_only_on_key_witness :
  @ImageDataset_getitem Demo.runtime
    (built (H := Demo.runtime) Demo.preprocess Demo.tokenizer Demo.images_only
       false true false ["corrupt.jpg"; "ok.png"]) 1 =
  @ImageDataset_getitem Demo.runtime
    (built (H := Demo.runtime) Demo.preprocess Demo.tokenizer Demo.images_only
       false true false ["ok.png"; "corrupt.jpg"]) 0.
Proof.
  apply (@record_depends_only_on_key Demo.runtime Demo.preprocess Demo.tokenizer
           Demo.images_only false true false default_input_sampler reverse
           [EvSampler ["corrupt.jpg"; "ok.png"]] [EvSampler ["corrupt.jpg"; "ok.png"]]
           _ _ 1 0 "ok.png").
  - vm_compute; reflexivity.
  - vm_compute; reflexivity.
  - reflexivity.
  - reflexivity.
Defined.

(** ** The length of the dataset *)

Lemma anchor_keys_by_extension folder et ei em ks k :
  anchor_keys folder et ei em = Some ks →
  k ∈ ks ↔
  k ∈ folder_entries folder ∧ has_extension (anchor_extensions et ei em) k = true.
Proof.
  unfold anchor_keys, anchor_extensions, has_extension.
  rewrite existsb_exists.
  destruct et; [|destruct ei; [|destruct em; [|done]]]; intros [= <-].
  - rewrite text_keys. split.
    + intros [? ?]. split; [done|]. exists "txt". split; [by left|done].
    + intros [? (ext & [<-|[]] & ?)]. done.
  - rewrite image_keys. split.
    + intros [? (ext & ?%list_elem_of_In & ?)]. eauto.
    + intros [? (ext & ?%list_elem_of_In & ?)]. eauto.
  - rewrite metadata_keys. split.
    + intros [? ?]. split; [done|]. exists "json". split; [by left|done].
    + intros [? (ext & [<-|[]] & ?)]. done.
Qed.

(** X9. Over a folder whose entries are distinct, with the identity
    sampler, the length of the dataset is the number of entries that
    carry an extension of the anchor modality (text if enabled, else
    image, else metadata): entries of the other enabled modalities do
    not count. *)
Theorem len_counts_anchor_entries `{Runtime}
    (preprocess : Image → Res Tensor) (tokenizer : list string → Res (list Tokens))
    (folder : Folder) (et ei em : bool)
    (t0 : list Event) (self : ImageDataset) :
  NoDup (folder_entries folder) →
  ImageDataset_init preprocess tokenizer folder et ei em default_input_sampler
    = (t0, Ok self) →
  ImageDataset_len self =
    length (List.filter (has_extension (anchor_extensions et ei em))
              (folder_entries folder)).
Proof.
  intros Hnodup Hinit.
  destruct (et || ei || em) eqn:Hen.
  2:{ destruct et, ei, em; try discriminate Hen. discriminate Hinit. }
  destruct (ImageDataset_init_enabled preprocess tokenizer folder et ei em
              default_input_sampler Hen) as (keys & _ & [_ Hkeys] & Hmem & Hinit').
  rewrite Hinit' in Hinit. injection Hinit as _ <-.
  unfold ImageDataset_len, default_input_sampler. cbn [self_keys built].
  destruct (anchor_keys_enabled folder _ _ _ Hen) as [ks Hks].
  apply Permutation_length, NoDup_Permutation; [done| |].
  - apply NoDup_ListNoDup, List.NoDup_filter. by apply NoDup_ListNoDup.
  - intros k. rewrite (Hmem _ Hks k), (anchor_keys_by_extension _ _ _ _ _ _ Hks).
    by rewrite (list_elem_of_In (List.filter _ _)), filter_In, <- list_elem_of_In.
Qed.

Lemma len_counts_anchor_entries_witness :
  @ImageDataset_len Demo.runtime
    (built (H := Demo.runtime) Demo.preprocess Demo.tokenizer Demo.folder
       true true false ["a.txt"]) =
  length (List.filter (has_extension (anchor_extensions true true false))
            (folder_entries Demo.folder)).
Proof.
  apply (@len_counts_anchor_entries Demo.runtime Demo.preprocess Demo.tokenizer
           Demo.folder true true false [EvSampler ["a.txt"]]).
  - repeat (apply NoDup_cons_2;
              [intros Hin;
               repeat (apply elem_of_cons in Hin as [Hin|Hin]; [discriminate Hin|]);
               by apply elem_of_nil in Hin|]).
    apply NoDup_nil_2.
  - vm_compute; reflexivity.
Defined.

(** ** The archive filter and the mapped function *)

(** X10. An entry admitted with some modalities enabled is admitted with
    any subset of them enabled: disabling a modality never excludes an
    entry. *)
Theorem filter_dataset_fewer_modalities
    (et ei em et' ei' em' : bool) (image_key caption_key : string) (item : Item) :
  (et' = true → et = true) →
  (ei' = true → ei = true) →
  (em' = true → em = true) →
  filter_dataset et ei em image_key caption_key item = true →
  filter_dataset et' ei' em' image_key caption_key item = true.
Proof.
  intros Ht Hi Hm. rewrite !filter_dataset_true.
  intros (Hcaption & Himage & Hjson). split; [|split]; auto.
Qed.

Lemma filter_dataset_fewer_modalities_witness :
  filter_dataset false true false "jpg" "txt" Demo.entry = true.
Proof.
  apply (filter_dataset_fewer_modalities true true false false true false).
  - discriminate.
  - reflexivity.
  - discriminate.
  - vm_compute; reflexivity.
Defined.

Lemma lift_inv_raise {A} (r : Res A) t e :
  lift r = (t, Raise e) → r = Raise e ∧ t = [].
Proof. unfold lift. by intros [= <- ->]. Qed.

Lemma call_inv_raise {A} ev (r : Res A) t e :
  call ev r = (t, Raise e) → r = Raise e ∧ t = [ev].
Proof. unfold call. by intros [= <- ->]. Qed.

Lemma list_getitem_raises {A} (l : list A) i e :
  list_getitem l i = Raise e → e = IndexError.
Proof.
  destruct (list_getitem_cases l i) as [(x & Hx & _)|Hx]; congruence.
Qed.

(** X11. The filter is what keeps the lookups of the mapped function
    safe: on an admitted entry, as long as the image library, the codec,
    the transform and the tokenizer raise no [KeyError] of their own,
    the only [KeyError] that [preprocess_dataset] can raise is the one
    for [__key__], read after the image was decoded; the image, caption
    and [json] fields are always found. *)
Theorem admitted_entry_has_its_fields `{Runtime}
    (image_transform : Image → Res Tensor)
    (tokenizer : list string → Res (list Tokens))
    (et ei em : bool) (image_key caption_key : string) (item : Item)
    (t : list Event) (k : string) :
  filter_dataset et ei em image_key caption_key item = true →
  (∀ data k', Image_open_bytes data ≠ Raise (KeyError k')) →
  (∀ image k', image_transform image ≠ Raise (KeyError k')) →
  (∀ texts k', tokenizer texts ≠ Raise (KeyError k')) →
  (∀ data k', decode_utf8 data ≠ Raise (KeyError k')) →
  preprocess_dataset image_transform tokenizer et ei em image_key caption_key item
    = (t, Raise (KeyError k)) →
  k = "__key__" ∧ ei = true ∧ item !! "__key__" = None.
Proof.
  intros (Ht & Hi & Hm)%filter_dataset_true Hopen Htrans Htok Hdec.
  unfold preprocess_dataset. intros Hraise.
  apply eff_bind_inv_raise in Hraise as [Himage|(? & o1 & ? & _ & Hraise & _)].
  - destruct ei; [|discriminate Himage]. destruct (Hi eq_refl) as [d Hd].
    apply eff_bind_inv_raise in Himage as [Hl|(? & d' & ? & _ & Himage & _)].
    { apply lift_inv_raise in Hl as [Hl _]. unfold dict_getitem in Hl.
      rewrite Hd in Hl. discriminate Hl. }
    apply eff_bind_inv_raise in Himage as [Hl|(? & b & ? & _ & Himage & _)].
    { apply lift_inv_raise in Hl as [Hl _]. destruct d'; discriminate Hl. }
    apply eff_bind_inv_raise in Himage as [Hl|(? & image & ? & _ & Himage & _)].
    { apply call_inv_raise in Hl as [Hl _]. by apply Hopen in Hl. }
    apply eff_bind_inv_raise in Himage as [Hl|(? & tensor & ? & _ & Himage & _)].
    { apply call_inv_raise in Hl as [Hl _]. by apply Htrans in Hl. }
    apply eff_bind_inv_raise in Himage as [Hl|(? & name & ? & _ & Himage & _)];
      [|discriminate Himage].
    apply lift_inv_raise in Hl as [Hl _]. unfold dict_getitem in Hl.
    destruct (item !! "__key__") eqn:Hkey; [discriminate Hl|].
    by injection Hl as <-.
  - exfalso.
    apply eff_bind_inv_raise in Hraise as [Htext|(? & o2 & ? & _ & Hraise & _)].
    + destruct et; [|discriminate Htext]. destruct (Ht eq_refl) as [d Hd].
      apply eff_bind_inv_raise in Htext as [Hl|(? & d' & ? & _ & Htext & _)].
      { apply lift_inv_raise in Hl as [Hl _]. unfold dict_getitem in Hl.
        rewrite Hd in Hl. discriminate Hl. }
      apply eff_bind_inv_raise in Htext as [Hl|(? & caption & ? & _ & Htext & _)].
      { apply lift_inv_raise in Hl as [Hl _].
        destruct d'; [by apply Hdec in Hl|discriminate Hl]. }
      apply eff_bind_inv_raise in Htext as [Hl|(? & tokens & ? & _ & Htext & _)];
        [|discriminate Htext].
      unfold tokenize_one in Hl.
      apply eff_bind_inv_raise in Hl as [Hl|(? & encoded & ? & _ & Hl & _)].
      { apply call_inv_raise in Hl as [Hl _]. by apply Htok in Hl. }
      apply lift_inv_raise in Hl as [Hl%list_getitem_raises _]. discriminate Hl.
    + apply eff_bind_inv_raise in Hraise as [Hmeta|(? & o3 & ? & _ & Hraise & _)];
        [|discriminate Hraise].
      destruct em; [|discriminate Hmeta]. destruct (Hm eq_refl) as [d Hd].
      apply eff_bind_inv_raise in Hmeta as [Hl|(? & d' & ? & _ & Hmeta & _)].
      { apply lift_inv_raise in Hl as [Hl _]. unfold dict_getitem in Hl.
        rewrite Hd in Hl. discriminate Hl. }
      apply eff_bind_inv_raise in Hmeta as [Hl|(? & metadata & ? & _ & Hmeta & _)];
        [|discriminate Hmeta].
      apply lift_inv_raise in Hl as [Hl _].
      destruct d'; [by apply Hdec in Hl|discriminate Hl].
Qed.

Lemma admitted_entry_has_its_fields_witness :
  "__key__" = "__key__" ∧ true = true ∧ Demo.entry_without_key !! "__key__" = None.
Proof.
  apply (@admitted_entry_has_its_fields Demo.runtime Demo.preprocess Demo.tokenizer
           false true false "jpg" "txt" Demo.entry_without_key
           [EvImageOpen "pixels"; EvTransform] "__key__").
  - vm_compute; reflexivity.
  - intros data k'. cbn [Image_open_bytes Demo.runtime].
    destruct (String.eqb data ""); discriminate.
  - intros image k'. discriminate.
  - intros texts k'. discriminate.
  - intros data k'. discriminate.
  - vm_compute; reflexivity.
Defined.



(** ** Who is called *)

Lemma eff_bind_trace_elem {A B} (m : Eff A) (f : A → Eff B) ev :
  ev ∈ (m ≫= f).1 → ev ∈ m.1 ∨ ∃ a, m.2 = Ok a ∧ ev ∈ (f a).1.
Proof.
  destruct m as [t [a|e]].
  - rewrite eff_bind_ok. cbn [fst snd]. intros [?|?]%elem_of_app; eauto.
  - rewrite eff_bind_raise. by left.
Qed.

Lemma try_except_trace_elem {A} (body : Eff A) caught handler ev :
  ev ∈ (try_except body caught handler).1 →
  ev ∈ body.1 ∨ ∃ e, ev ∈ (handler e).1.
Proof.
  unfold try_except. destruct body as [t [a|e]]; [by left|].
  destruct (caught e); [|by left].
  destruct (handler e) as [th r] eqn:Hh. cbn [fst].
  intros [?|?]%elem_of_app; [by left|]. right. exists e. by rewrite Hh.
Qed.

(** X13. With text disabled the injected tokenizer is never called:
    neither by [__getitem__] of a folder dataset, at any index, nor by
    [preprocess_dataset] on any archive entry. *)
Theorem tokenizer_not_called_without_text `{Runtime}
    (preprocess : Image → Res Tensor) (tokenizer : list string → Res (list Tokens)) :
  (∀ folder ei em sampler t0 self ind arg,
     ImageDataset_init preprocess tokenizer folder false ei em sampler = (t0, Ok self) →
     EvTokenizer arg ∉ (ImageDataset_getitem self ind).1) ∧
  (∀ ei em image_key caption_key item arg,
     EvTokenizer arg ∉
       (preprocess_dataset preprocess tokenizer false ei em image_key caption_key
          item).1).
Proof.
  split.
  - intros folder ei em sampler t0 self ind arg Hinit Hin.
    destruct (false || ei || em) eqn:Hen.
    2:{ destruct ei, em; try discriminate Hen. discriminate Hinit. }
    destruct (ImageDataset_init_enabled preprocess tokenizer folder false ei em
                sampler Hen) as (keys & _ & _ & _ & Hinit').
    rewrite Hinit' in Hinit. injection Hinit as _ <-.
    unfold ImageDataset_getitem, getitem_image, getitem_text, getitem_metadata in Hin.
    cbn [self_keys self_enable_image self_enable_text self_enable_metadata built] in Hin.
    repeat match type of Hin with
    | _ ∈ (_ ≫= _).1 =>
        apply eff_bind_trace_elem in Hin as [Hin|(? & _ & Hin)]
    | _ ∈ (try_except _ _ _).1 =>
        apply try_except_trace_elem in Hin as [Hin|(? & Hin)]
    | _ ∈ (if ?b then _ else _).1 => destruct b
    | _ ∈ (match ?x with Some _ => _ | None => _ end).1 => destruct x
    end;
    first [ by apply elem_of_nil in Hin
          | apply list_elem_of_singleton in Hin; discriminate Hin ].
  - intros ei em image_key caption_key item arg Hin.
    unfold preprocess_dataset in Hin.
    repeat match type of Hin with
    | _ ∈ (_ ≫= _).1 =>
        apply eff_bind_trace_elem in Hin as [Hin|(? & _ & Hin)]
    | _ ∈ (if ?b then _ else _).1 => destruct b
    end;
    first [ by apply elem_of_nil in Hin
          | apply list_elem_of_singleton in Hin; discriminate Hin ].
Qed.

Lemma tokenizer_not_called_without_text_witness :
  EvTokenizer ["content of ok.png"] ∉
    (@ImageDataset_getitem Demo.runtime
       (built (H := Demo.runtime) Demo.preprocess Demo.tokenizer Demo.images_only
          false true false ["corrupt.jpg"; "ok.png"]) 1).1.
Proof.
  destruct (@tokenizer_not_called_without_text Demo.runtime Demo.preprocess
              Demo.tokenizer) as [Hfolder _].
  apply (Hfolder Demo.images_only true false default_input_sampler
           [EvSampler ["corrupt.jpg"; "ok.png"]]).
  vm_compute; reflexivity.
Defined.

(** ** The fields of a record *)

Section record_shape.
Context `{Runtime}.

Lemma getitem_text_shape self key output t out :
  getitem_text self key output = (t, Ok out) →
  if self_enable_text self
  then ∃ caption tokens,
         out = <["text" := VStr caption]> (<["text_tokens" := VTokens tokens]> output)
  else out = output.
Proof.
  unfold getitem_text. destruct (self_enable_text self); [|by intros [= _ <-]].
  intros (? & ? & ? & _ & Hrest & _)%eff_bind_inv_ok.
  apply eff_bind_inv_ok in Hrest as (? & ? & ? & _ & Hrest & _).
  apply eff_bind_inv_ok in Hrest as (? & caption & ? & _ & Hrest & _).
  apply eff_bind_inv_ok in Hrest as (? & ? & ? & _ & Hrest & _).
  apply eff_bind_inv_ok in Hrest as (? & tokens & ? & _ & [= _ <-] & _).
  by exists caption, tokens.
Qed.

Lemma getitem_metadata_shape self key output t out :
  getitem_metadata self key output = (t, Ok out) →
  if self_enable_metadata self
  then ∃ files metadata_file metadata,
         self_metadata_files self = Some files ∧
         files !! key = Some metadata_file ∧
         read_text metadata_file = Ok metadata ∧
         out = <["metadata" := VStr metadata]> output
  else out = output.
Proof.
  unfold getitem_metadata. destruct (self_enable_metadata self); [|by intros [= _ <-]].
  intros (? & files & ? & [Hfiles%not_none_inv_ok _]%lift_inv_ok & Hrest & _)%eff_bind_inv_ok.
  apply eff_bind_inv_ok in Hrest
    as (? & metadata_file & ? & [Hfile%dict_getitem_inv_ok _]%lift_inv_ok & Hrest & _).
  apply eff_bind_inv_ok in Hrest
    as (? & metadata & ? & [Hread _]%call_inv_ok & [= _ <-] & _).
  by exists files, metadata_file, metadata.
Qed.

Lemma preprocess_dataset_shape image_transform tokenizer et ei em
    image_key caption_key (item : Item) t sample :
  preprocess_dataset image_transform tokenizer et ei em image_key caption_key item
    = (t, Ok sample) →
  ∃ o1 o2 : Sample,
    (if ei then ∃ data image tensor name,
                  item !! image_key = Some (FBytes data) ∧
                  Image_open_bytes data = Ok image ∧
                  image_transform image = Ok tensor ∧
                  item !! "__key__" = Some name ∧
                  o1 = <["image_tensor" := VTensor tensor]>
                         (<["image_filename" := field_value name]> ∅)
     else o1 = ∅) ∧
    (if et then ∃ caption tokens,
                  o2 = <["text" := VStr caption]>
                         (<["text_tokens" := VTokens tokens]> o1)
     else o2 = o1) ∧
    (if em then ∃ data metadata,
                  item !! "json" = Some data ∧
                  field_decode data = Ok metadata ∧
                  sample = <["metadata" := VStr metadata]> o2
     else sample = o2).
Proof.
  unfold preprocess_dataset.
  intros (? & o1 & ? & Himage & Hrest & _)%eff_bind_inv_ok.
  apply eff_bind_inv_ok in Hrest as (? & o2 & ? & Htext & Hrest & _).
  apply eff_bind_inv_ok in Hrest as (? & o3 & ? & Hmeta & [= _ <-] & _).
  exists o1, o2. split; [|split].
  - destruct ei; [|by injection Himage as _ <-].
    apply eff_bind_inv_ok in Himage
      as (? & d & ? & [Hd%dict_getitem_inv_ok _]%lift_inv_ok & Himage & _).
    apply eff_bind_inv_ok in Himage
      as (? & data & ? & [Hdata _]%lift_inv_ok & Himage & _).
    apply eff_bind_inv_ok in Himage
      as (? & image & ? & [Hopen _]%call_inv_ok & Himage & _).
    apply eff_bind_inv_ok in Himage
      as (? & tensor & ? & [Htrans _]%call_inv_ok & Himage & _).
    apply eff_bind_inv_ok in Himage
      as (? & name & ? & [Hname%dict_getitem_inv_ok _]%lift_inv_ok & [= _ <-] & _).
    destruct d as [b|]; [|discriminate Hdata]. injection Hdata as ->.
    by exists data, image, tensor, name.
  - destruct et; [|by injection Htext as _ <-].
    apply eff_bind_inv_ok in Htext as (? & ? & ? & _ & Htext & _).
    apply eff_bind_inv_ok in Htext as (? & caption & ? & _ & Htext & _).
    apply eff_bind_inv_ok in Htext as (? & tokens & ? & _ & [= _ <-] & _).
    by exists caption, tokens.
  - destruct em; [|by injection Hmeta as _ <-].
    apply eff_bind_inv_ok in Hmeta
      as (? & data & ? & [Hd%dict_getitem_inv_ok _]%lift_inv_ok & Hmeta & _).
    apply eff_bind_inv_ok in Hmeta
      as (? & metadata & ? & [Hdec _]%lift_inv_ok & [= _ <-] & _).
    by exists data, metadata.
Qed.

End record_shape.

(** X14. The field names of a record follow the enabled modalities and
    nothing else: a record returned by [__getitem__] or by
    [preprocess_dataset] has [image_filename] and [image_tensor] exactly
    when image is enabled, [text] and [text_tokens] exactly when text is
    enabled, and [metadata] exactly when metadata is enabled. *)
Theorem record_fields_follow_flags `{Runtime}
    (preprocess : Image → Res Tensor) (tokenizer : list string → Res (list Tokens)) :
  (∀ folder et ei em sampler t0 self ind t sample,
     ImageDataset_init preprocess tokenizer folder et ei em sampler = (t0, Ok self) →
     ImageDataset_getitem self ind = (t, Ok (Some sample)) →
     dom sample = record_fields et ei em) ∧
  (∀ et ei em image_key caption_key item t sample,
     preprocess_dataset preprocess tokenizer et ei em image_key caption_key item
       = (t, Ok sample) →
     dom sample = record_fields et ei em).
Proof.
  split.
  - intros folder et ei em sampler t0 self ind t sample Hinit Hget.
    destruct (et || ei || em) eqn:Hen.
    2:{ destruct et, ei, em; try discriminate Hen. discriminate Hinit. }
    destruct (ImageDataset_init_enabled preprocess tokenizer folder et ei em
                sampler Hen) as (keys & _ & _ & _ & Hinit').
    rewrite Hinit' in Hinit. injection Hinit as _ <-.
    apply getitem_inv in Hget
      as (key & t1 & out1 & t2 & out2 & t3 & _ & Himage & Htext & Hmeta).
    apply getitem_image_inv in Himage.
    apply getitem_text_shape in Htext. apply getitem_metadata_shape in Hmeta.
    cbn [self_enable_image self_enable_text self_enable_metadata built] in *.
    unfold record_fields.
    destruct Himage as [(-> & -> & _)|(-> & ? & ? & ? & ? & ? & _ & _ & _ & _ & _ & -> & _)];
      destruct et, em;
      repeat match goal with
             | H : ∃ _, _ |- _ => destruct H as [? H]
             | H : _ ∧ _ |- _ => destruct H as [_ H]
             end; subst;
      rewrite ?dom_insert_L, ?dom_empty_L; set_solver.
  - intros et ei em image_key caption_key item t sample
      (o1 & o2 & Himage & Htext & Hmeta)%preprocess_dataset_shape.
    unfold record_fields.
    destruct ei, et, em;
      repeat match goal with
             | H : ∃ _, _ |- _ => destruct H as [? H]
             | H : _ ∧ _ |- _ => destruct H as [_ H]
             end; subst;
      rewrite ?dom_insert_L, ?dom_empty_L; set_solver.
Qed.

Lemma record_fields_follow_flags_witness :
  dom Demo.entry_record = record_fields true false false.
Proof.
  destruct (@record_fields_follow_flags Demo.runtime Demo.preprocess Demo.tokenizer)
    as [_ Harchive].
  apply (Harchive true false false "jpg" "txt" Demo.entry [EvTokenizer ["a cat"]]).
  vm_compute; reflexivity.
Defined.

(** ** A folder without a matching file *)



(** ** Image and metadata fields *)





(** ** A batch of dropped records *)

(** X18. In the files reader, a group of indices whose records are all
    dropped ends the iteration: the collate function filters the group
    down to the empty list, the default collate function raises
    [IndexError] on it, and no batch of this group or of a later one is
    yielded. *)
Theorem all_dropped_batch_ends_iteration `{Runtime}
    (sampler : list string → list string)
    (preprocess : Image → Res Tensor) (tokenizer : list string → Res (list Tokens))
    (folder : Folder) (batch_size workers : nat) (et ei em : bool)
    (t0 : list Event) (reader : FilesReader)
    (group : list Z) (rest : list (list Z)) (t : list Event) (n : nat) :
  FilesReader_init sampler preprocess tokenizer folder batch_size workers et ei em
    = (t0, Ok reader) →
  fetch (dl_dataset (fr_dataloader reader)) group = (t, Ok (replicate n None)) →
  files_batches (fr_dataloader reader) (group :: rest) = (t, [], Some IndexError).
Proof.
  unfold FilesReader_init.
  intros (? & dataset & ? & _ & Hrest & _)%eff_bind_inv_ok Hfetch.
  apply eff_bind_inv_ok in Hrest as (? & dl & ? & [Hdl _]%lift_inv_ok & [= _ <-] & _).
  unfold dataset_to_dataloader in Hdl.
  destruct (Nat.eqb batch_size 0); [discriminate Hdl|]. injection Hdl as <-.
  cbn [fr_dataloader dl_dataset dl_collate files_batches] in *.
  rewrite Hfetch. cbn [String.eqb Ascii.eqb Bool.eqb].
  by rewrite collate_fn_all_dropped.
Qed.

Lemma all_dropped_batch_ends_iteration_witness :
  ∃ reader,
    @FilesReader_init Demo.runtime default_input_sampler Demo.preprocess
      Demo.tokenizer Demo.images_only 1 0 false true false =
      ([EvSampler ["corrupt.jpg"; "ok.png"]], Ok reader) ∧
    files_batches (fr_dataloader reader) ([0%Z] :: [[1%Z]]) =
      ([EvImageOpen "data/corrupt.jpg";
        EvPrint
          "Failed to load image data/corrupt.jpg. Error: cannot identify image file 'data/corrupt.jpg'. Skipping."],
       [], Some IndexError).
Proof.
  eexists. split; [vm_compute; reflexivity|].
  apply (@all_dropped_batch_ends_iteration Demo.runtime default_input_sampler
           Demo.preprocess Demo.tokenizer Demo.images_only 1 0 false true false
           [EvSampler ["corrupt.jpg"; "ok.png"]] _ [0%Z] [[1%Z]] _ 1).
  - vm_compute; reflexivity.
  - vm_compute; reflexivity.
Defined.

(** ** The sampler after construction *)

Lemma iterate_trace_elem `{Runtime} (ds : TransformedDataset) stream ev :
  ev ∈ (iterate ds stream).1 →
  ∃ item, item ∈ stream ∧ ev ∈ (process_entry ds item).1.
Proof.
  induction stream as [|item rest IH].
  - simpl. by intros ?%elem_of_nil.
  - rewrite iterate_cons. cbn [fst]. intros [Hin|Hin]%elem_of_app.
    + exists item. split; [by left|done].
    + destruct (IH Hin) as (item' & ? & ?). exists item'. split; [by right|done].
Qed.

(** X19. Once a source is constructed the sampler is out of the
    picture: no call of [__getitem__] on a folder dataset and no step of
    the iteration over an archive dataset calls it, so the one call at
    construction is the only one. *)
Theorem sampler_not_called_after_construction `{Runtime}
    (preprocess : Image → Res Tensor) (tokenizer : list string → Res (list Tokens))
    (sampler : list string → list string) :
  (∀ folder et ei em t0 self ind arg,
     ImageDataset_init preprocess tokenizer folder et ei em sampler = (t0, Ok self) →
     EvSampler arg ∉ (ImageDataset_getitem self ind).1) ∧
  (∀ urls et ei image_key caption_key em cache_path t0 dataset stream arg,
     create_webdataset urls preprocess tokenizer et ei image_key caption_key
       em cache_path sampler = (t0, Ok dataset) →
     EvSampler arg ∉ (iterate dataset stream).1).
Proof.
  split.
  - intros folder et ei em t0 self ind arg Hinit Hin.
    destruct (et || ei || em) eqn:Hen.
    2:{ destruct et, ei, em; try discriminate Hen. discriminate Hinit. }
    destruct (ImageDataset_init_enabled preprocess tokenizer folder et ei em
                sampler Hen) as (keys & _ & _ & _ & Hinit').
    rewrite Hinit' in Hinit. injection Hinit as _ <-.
    unfold ImageDataset_getitem, getitem_image, getitem_text, getitem_metadata in Hin.
    destruct et, ei, em;
      cbn [self_keys self_enable_image self_enable_text self_enable_metadata
           self_tokenizer self_image_transform built not_none] in Hin;
      repeat match type of Hin with
      | _ ∈ (lift (Ok _) ≫= _).1 => rewrite eff_bind_lift_ok in Hin
      | _ ∈ (_ ≫= _).1 =>
          apply eff_bind_trace_elem in Hin as [Hin|(? & _ & Hin)]
      | _ ∈ (try_except _ _ _).1 =>
          apply try_except_trace_elem in Hin as [Hin|(? & Hin)]
      | _ ∈ (tokenize_one _ _).1 => unfold tokenize_one in Hin
      | _ ∈ (match ?x with Some _ => _ | None => _ end).1 => destruct x
      end;
      first [ by apply elem_of_nil in Hin
            | apply list_elem_of_singleton in Hin; discriminate Hin ].
  - intros urls et ei image_key caption_key em cache_path t0 dataset stream arg
      Hcreate Hin.
    rewrite create_webdataset_returns in Hcreate. injection Hcreate as _ <-.
    apply iterate_trace_elem in Hin as (item & _ & Hin).
    unfold process_entry in Hin. cbn [td_select td_map] in Hin.
    destruct (filter_dataset _ _ _ _ _ item); [|by apply elem_of_nil in Hin].
    assert (EvSampler arg ∈
              (preprocess_dataset preprocess tokenizer et ei em image_key
                 caption_key item).1) as Hmap.
    { destruct (preprocess_dataset _ _ _ _ _ _ _ item) as [t [s|e]]; [done|].
      cbn [fst] in *. apply elem_of_app in Hin as [Hin|Hin]; [done|].
      apply list_elem_of_singleton in Hin. discriminate Hin. }
    clear Hin. unfold preprocess_dataset in Hmap.
    repeat match type of Hmap with
    | _ ∈ (_ ≫= _).1 =>
        apply eff_bind_trace_elem in Hmap as [Hmap|(? & _ & Hmap)]
    | _ ∈ (tokenize_one _ _).1 => unfold tokenize_one in Hmap
    | _ ∈ (if ?b then _ else _).1 => destruct b
    end;
    first [ by apply elem_of_nil in Hmap
          | apply list_elem_of_singleton in Hmap; discriminate Hmap ].
Qed.

Lemma sampler_not_called_after_construction_witness :
  EvSampler ["a.txt"; "sub/b.txt"] ∉
    (@ImageDataset_getitem Demo.runtime
       (built (H := Demo.runtime) Demo.preprocess Demo.tokenizer Demo.captions_only
          true false false ["a.txt"; "sub/b.txt"]) 0).1.
Proof.
  destruct (@sampler_not_called_after_construction Demo.runtime Demo.preprocess
              Demo.tokenizer default_input_sampler) as [Hfolder _].
  apply (Hfolder Demo.captions_only true false false
           [EvSampler ["a.txt"; "sub/b.txt"]]).
  vm_compute; reflexivity.
Defined.
